(** * MCA chunk inspector: region header, chunk lookup, recovery scan

    A shallow embedding of [mca_chunk_inspector.py].  Python integers are
    unbounded, so they are modelled by [Z]; [bytes] objects are lists of
    [Byte.byte]; the [res] dictionary of [extract_chunk_raw_from_region] is
    a record whose optional fields are the keys that may be missing; the file
    object is a handle (contents, position, log of the reads issued) that is
    threaded through a small state-and-exception monad. *)

From Stdlib Require Import ZArith List Lia Bool String Ascii.
From Stdlib Require Import Strings.Byte Numbers.DecimalString.
Import ListNotations.

Local Open Scope string_scope.
Local Open Scope list_scope.
Local Open Scope Z_scope.

(** ** Byte strings *)

Definition bytes := list byte.

Definition byte_val (b : byte) : Z := Z.of_N (Byte.to_N b).

Definition len {A} (l : list A) : Z := Z.of_nat (List.length l).

(** [l[a:b]] for non-negative [a] and [b]. *)
Definition slice {A} (l : list A) (a b : Z) : list A :=
  firstn (Z.to_nat (b - a)) (skipn (Z.to_nat a) l).

(** [l[a:]] for non-negative [a]. *)
Definition slice_from {A} (l : list A) (a : Z) : list A :=
  skipn (Z.to_nat a) l.

(** [l[i]] for [0 <= i < len l]; the default is never reached by the callers,
    which test the bound first. *)
Definition byte_at (l : bytes) (i : Z) : byte := nth (Z.to_nat i) l x00.

Fixpoint starts_with (needle hay : bytes) : bool :=
  match needle, hay with
  | [], _ => true
  | _ :: _, [] => false
  | n :: needle', h :: hay' => Byte.eqb n h && starts_with needle' hay'
  end.

(** [hay.find(needle)], scanning from index [i]: the lowest index at which
    [needle] occurs, or [-1]. *)
Fixpoint find_from (needle hay : bytes) (i : Z) : Z :=
  match hay with
  | [] => if starts_with needle [] then i else -1
  | _ :: hay' =>
      if starts_with needle hay then i else find_from needle hay' (i + 1)
  end.

Definition bytes_find (hay needle : bytes) : Z := find_from needle hay 0.

(** ** Decimal rendering of integers, as in an f-string *)

Definition str_of_Z (z : Z) : string := NilZero.string_of_int (Z.to_int z).

(** ** [struct.unpack(">I", b)[0]] *)

Definition struct_unpack_I (b : bytes) : string + Z :=
  match b with
  | [b0; b1; b2; b3] =>
      inr (((byte_val b0 * 256 + byte_val b1) * 256 + byte_val b2) * 256
           + byte_val b3)
  | _ => inl "unpack requires a buffer of 4 bytes"
  end.

(** ** [chunk_index] *)

Definition chunk_index (cx cz : Z) : Z :=
  let rx := Z.land cx 31 in
  let rz := Z.land cz 31 in
  rx + rz * 32.

(** ** The file object

    A handle on a file opened with [open(path, "rb")]: the file's contents,
    the current position and the log of the [read] calls issued so far, each
    as (position, requested size).  Reads of an opened file are taken to
    succeed; only what [read] itself rejects is an exception. *)

Record handle := mkHandle {
  content : bytes;
  pos : Z;
  reads : list (Z * Z)
}.

Definition open_rb (data : bytes) : handle := mkHandle data 0 [].

(** ** The result dictionary [res]

    A field that is [None] is a key that is absent.  The key ['compression']
    can be present and hold Python's [None], hence the nested option. *)

Module Info.
Record t := mk {
  found : bool;
  errors : list string;
  offset_sector : option Z;
  sector_count : option Z;
  length : option Z;
  compression : option (option Z);
  compressed_bytes : option bytes;
  raw_sector_data : option bytes;
  decompressed_bytes : option bytes
}.

(** [{'found': False, 'errors': []}] *)
Definition init : t := mk false [] None None None None None None None.

(** [res['errors'].append(msg)] *)
Definition append_error (msg : string) (r : t) : t :=
  mk (found r) (errors r ++ [msg]) (offset_sector r) (sector_count r)
     (length r) (compression r) (compressed_bytes r) (raw_sector_data r)
     (decompressed_bytes r).

(** [res.update({'offset_sector': o, 'sector_count': c})] *)
Definition set_location (o c : Z) (r : t) : t :=
  mk (found r) (errors r) (Some o) (Some c) (length r) (compression r)
     (compressed_bytes r) (raw_sector_data r) (decompressed_bytes r).

(** The [res.update] of the standard path. *)
Definition set_standard (l : Z) (c : option Z) (payload raw : bytes) (r : t)
  : t :=
  mk true (errors r) (offset_sector r) (sector_count r) (Some l) (Some c)
     (Some payload) (Some raw) (decompressed_bytes r).

(** The [res.update] of the scan path. *)
Definition set_recovered (c : Z) (tail dec : bytes) (r : t) : t :=
  mk true (errors r) (offset_sector r) (sector_count r) (length r)
     (Some (Some c)) (Some tail) (raw_sector_data r) (Some dec).
End Info.

(** ** State and exceptions

    The body of [extract_chunk_raw_from_region] mutates the file position and
    the dictionary, and an exception leaves both as they were when it was
    raised (the handlers append to the same dictionary). *)

Record state := mkState {
  fh : handle;
  res : Info.t
}.

Definition M (A : Type) : Type := state -> (string + A) * state.

Definition ret {A} (a : A) : M A := fun s => (inr a, s).

Definition raise {A} (e : string) : M A := fun s => (inl e, s).

Definition bind {A B} (m : M A) (k : A -> M B) : M B :=
  fun s =>
    match m s with
    | (inl e, s') => (inl e, s')
    | (inr a, s') => k a s'
    end.

(** [try: m except Exception as e: h e] *)
Definition try_except {A} (m : M A) (h : string -> M A) : M A :=
  fun s =>
    match m s with
    | (inl e, s') => h e s'
    | (inr a, s') => (inr a, s')
    end.

Definition lift {A} (r : string + A) : M A :=
  match r with
  | inl e => raise e
  | inr a => ret a
  end.

Declare Scope py_scope.
Delimit Scope py_scope with py.
Notation "x <- m ;; k" := (bind m (fun x => k))
  (at level 61, m at next level, right associativity) : py_scope.
Notation "m ;; k" := (bind m (fun _ => k))
  (at level 61, right associativity) : py_scope.
Local Open Scope py_scope.

Definition update_res (f : Info.t -> Info.t) : M unit :=
  fun s => (inr tt, mkState (fh s) (f (res s))).

Definition add_error (msg : string) : M unit :=
  update_res (Info.append_error msg).

(** [f.seek(n)] *)
Definition f_seek (n : Z) : M unit :=
  fun s =>
    if n <? 0 then (inl "[Errno 22] Invalid argument", s)
    else
      (inr tt, mkState (mkHandle (content (fh s)) n (reads (fh s))) (res s)).

(** [f.seek(0, os.SEEK_END)] *)
Definition f_seek_end : M unit :=
  fun s =>
    (inr tt,
     mkState (mkHandle (content (fh s)) (len (content (fh s))) (reads (fh s)))
             (res s)).

(** [f.tell()] *)
Definition f_tell : M Z := fun s => (inr (pos (fh s)), s).

(** [f.read(n)] on a buffered binary reader: [n = -1] reads to the end of the
    file, a size below [-1] is a [ValueError]. *)
Definition read_bytes (data : bytes) (p n : Z) : bytes :=
  if n =? -1 then slice_from data p else slice data p (p + n).

Definition f_read (n : Z) : M bytes :=
  fun s =>
    if n <? -1 then (inl "read length must be non-negative or -1", s)
    else
      let h := fh s in
      let out := read_bytes (content h) (pos h) n in
      (inr out,
       mkState (mkHandle (content h) (pos h + len out)
                         (reads h ++ [(pos h, n)]))
               (res s)).

(** ** [read_region_header] *)

(** [range(a, b)] *)
Definition py_range (a b : Z) : list Z :=
  map (fun i => a + Z.of_nat i) (seq 0 (Z.to_nat (b - a))).

(** A list comprehension whose element expression may raise. *)
Fixpoint map_err {A B} (f : A -> string + B) (l : list A) : string + list B :=
  match l with
  | [] => inr []
  | a :: l' =>
      match f a with
      | inl e => inl e
      | inr b =>
          match map_err f l' with
          | inl e => inl e
          | inr bs => inr (b :: bs)
          end
      end
  end.

Definition decode_offsets (header : bytes) : string + list Z :=
  map_err (fun i => struct_unpack_I (slice header (i * 4) ((i + 1) * 4)))
          (py_range 0 1024).

Definition read_region_header : M (list Z) :=
  f_seek 0 ;;
  header <- f_read 8192 ;;
  if len header <? 8192 then raise "Region header too short"
  else lift (decode_offsets header).

(** [l[i]] on a Python list: a negative index counts from the end, an index
    out of range is an [IndexError]. *)
Definition list_index (l : list Z) (i : Z) : string + Z :=
  let j := if i <? 0 then i + len l else i in
  if (j <? 0) || (len l <=? j) then inl "list index out of range"
  else inr (nth (Z.to_nat j) l 0).

(** ** The standard read (the inner [try] of the extraction)

    The boolean tells whether the function returned [res] from inside the
    block. *)

Definition msg_length_mismatch (length n : Z) : string :=
  ("Chunk length " ++ str_of_Z length ++ " but only read " ++ str_of_Z n
   ++ " bytes.")%string.

Definition standard_read (start : Z) : M bool :=
  try_except
    (f_seek start ;;
     raw_head <- f_read 4 ;;
     if len raw_head <? 4 then
       add_error "Couldn't read length header (short read)." ;; ret false
     else
       length <- lift (struct_unpack_I raw_head) ;;
       compressed <- f_read length ;;
       if len compressed <? Z.max 0 length then
         add_error (msg_length_mismatch length (len compressed)) ;; ret false
       else
         let comp_type :=
           if len compressed >? 0 then Some (byte_val (byte_at compressed 0))
           else None in
         let payload :=
           if len compressed >? 1 then slice_from compressed 1 else [] in
         update_res
           (Info.set_standard length comp_type payload (raw_head ++ compressed)) ;;
         ret true)
    (fun e => add_error ("Standard read error: " ++ e)%string ;; ret false).

(** ** The recovery scan *)

Inductive cand := gzip | zlib.

Definition cand_name (c : cand) : string :=
  match c with gzip => "gzip" | zlib => "zlib" end.

Definition zlib_flag (b2 : byte) : bool :=
  Byte.eqb b2 x9c || Byte.eqb b2 x01 || Byte.eqb b2 xda.

(** The [for off in range(...)] loop: the first offset of the range that
    holds [78] followed by a common zlib flag byte, or [-1]. *)
Fixpoint zlib_probe (block : bytes) (offs : list Z) : Z :=
  match offs with
  | [] => -1
  | off :: offs' =>
      let b1 := byte_at block off in
      if Byte.eqb b1 x78 then
        if off + 1 <? len block then
          let b2 := byte_at block (off + 1) in
          if zlib_flag b2 then off else zlib_probe block offs'
        else zlib_probe block offs'
      else zlib_probe block offs'
  end.

(** The search over the scan window: [candidate_pos] and [cand_type], or
    [None] when [candidate_pos] stays [None]. *)
Definition find_candidate (block : bytes) (scan_start : Z) : option (Z * cand) :=
  let gz_pos := bytes_find block [x1f; x8b] in
  let z_pos := bytes_find block [x78] in
  if negb (gz_pos =? -1) then Some (scan_start + gz_pos, gzip)
  else if negb (z_pos =? -1) then
    let found :=
      zlib_probe block (py_range z_pos (Z.min (z_pos + 32) (len block))) in
    if negb (found =? -1) then Some (scan_start + found, zlib) else None
  else None.

Definition SCAN_LIMIT : Z := 1024 * 1024 * 4.

Definition msg_candidate (candidate_pos : Z) (c : cand) : string :=
  ("Could not read by header; found candidate compressed stream at file offset "
   ++ str_of_Z candidate_pos ++ " (" ++ cand_name c
   ++ "). Will try to extract.")%string.

Definition msg_beyond (start total_size : Z) : string :=
  ("Offset points beyond file (start=" ++ str_of_Z start ++ ", file="
   ++ str_of_Z total_size ++ ").")%string.

Section Extraction.

(** [gzip.decompress] and [zlib.decompress]: the decompressed bytes, or the
    text of the exception. *)
Variable gzip_decompress : bytes -> string + bytes.
Variable zlib_decompress : bytes -> string + bytes.

(** The window read of the scan: [scan_start], [file_end] and [block]. *)
Definition scan_window (start : Z) : M (Z * Z * bytes) :=
  let scan_start := Z.max start 4096 in
  f_seek_end ;;
  file_end <- f_tell ;;
  let scan_end := Z.min file_end (scan_start + SCAN_LIMIT) in
  f_seek scan_start ;;
  block <- f_read (scan_end - scan_start) ;;
  ret (scan_start, file_end, block).

Definition try_candidate (file_end candidate_pos : Z) (cand_type : cand)
  : M unit :=
  add_error (msg_candidate candidate_pos cand_type) ;;
  f_seek candidate_pos ;;
  tail <- f_read (Z.min (8 * 1024 * 1024) (file_end - candidate_pos)) ;;
  try_except
    (match cand_type with
     | gzip =>
         decompressed <- lift (gzip_decompress tail) ;;
         update_res (Info.set_recovered 1 tail decompressed)
     | zlib =>
         decompressed <- lift (zlib_decompress tail) ;;
         update_res (Info.set_recovered 2 tail decompressed)
     end)
    (fun e => add_error ("Decompression from candidate failed: " ++ e)%string).

Definition recovery_scan (start : Z) : M unit :=
  w <- scan_window start ;;
  let '(scan_start, file_end, block) := w in
  match find_candidate block scan_start with
  | Some (candidate_pos, cand_type) =>
      try_candidate file_end candidate_pos cand_type
  | None => add_error "No gzip/zlib header found during scan."
  end.

(** ** [extract_chunk_raw_from_region] *)

(** The part of the [with] block that follows the lookup, for an entry
    that is present. *)
Definition read_entry (start : Z) : M unit :=
  f_seek_end ;;
  total_size <- f_tell ;;
  (if start >=? total_size then add_error (msg_beyond start total_size)
   else ret tt) ;;
  returned <- standard_read start ;;
  if returned then ret tt else recovery_scan start.

(** The body of the [with open(...)] block. *)
Definition extract_body (cx cz : Z) : M unit :=
  offsets <- read_region_header ;;
  let idx := chunk_index cx cz in
  entry <- lift (list_index offsets idx) ;;
  let offset_sector := Z.shiftr entry 8 in
  let sector_count := Z.land entry 255 in
  update_res (Info.set_location offset_sector sector_count) ;;
  if offset_sector =? 0 then add_error "Chunk not present (offset 0)."
  else read_entry (offset_sector * 4096).

(** The whole call, with the final state of the file object.  [file] is
    what [open(path, "rb")] gives: the contents of the file, or the text of
    the exception it raises. *)
Definition extract_run (file : string + bytes) (cx cz : Z)
  : Info.t * option handle :=
  match file with
  | inl e =>
      (Info.append_error ("IO error opening region: " ++ e)%string Info.init,
       None)
  | inr data =>
      match extract_body cx cz (mkState (open_rb data) Info.init) with
      | (inl e, s) =>
          (Info.append_error ("IO error opening region: " ++ e)%string (res s),
           Some (fh s))
      | (inr _, s) => (res s, Some (fh s))
      end
  end.

Definition extract_chunk_raw_from_region (file : string + bytes) (cx cz : Z)
  : Info.t :=
  fst (extract_run file cx cz).

End Extraction.

(** ** [main]: decompression of the extracted chunk and the files written

    Only what [main] writes to disk is kept of its effects; the writes
    themselves are taken to succeed.  Each call of a decompressor is logged
    as an attempt, in order. *)

Record args := mkArgs {
  out : string;
  raw_nbt_out : option string
}.

Record diag := mkDiag {
  d_found : bool;
  d_offset_sector : option Z;
  d_sector_count : option Z;
  d_length : option Z;
  d_compression_byte : option Z;
  d_errors : list string
}.

Inductive write :=
| WriteJson (name : string) (d : diag) (nbt : string)
| WriteBytes (name : string) (data : bytes).

Definition attempt : Type := cand * bytes.

(** [info.get('compression')] *)
Definition get_compression (info : Info.t) : option Z :=
  match Info.compression info with
  | Some c => c
  | None => None
  end.

Definition make_diag (info : Info.t) : diag :=
  mkDiag (Info.found info) (Info.offset_sector info) (Info.sector_count info)
         (Info.length info) (get_compression info)
         (firstn 10 (Info.errors info)).

Definition opt_Z_eqb (a : option Z) (b : Z) : bool :=
  match a with
  | Some x => x =? b
  | None => false
  end.

Definition nonempty {A} (l : list A) : bool :=
  match l with [] => false | _ :: _ => true end.

Section Main.

Variable gzip_decompress : bytes -> string + bytes.
Variable zlib_decompress : bytes -> string + bytes.

(** [nbt_to_json_safe(parse_nbt_bytes(data))]: the JSON value as text, or
    the text of the exception. *)
Variable nbt_to_json : bytes -> string + string.

Definition decompress_with (c : cand) (data : option bytes) : string + bytes :=
  match data with
  | None => inl "a bytes-like object is required, not 'NoneType'"
  | Some b =>
      match c with
      | gzip => gzip_decompress b
      | zlib => zlib_decompress b
      end
  end.

Definition logged (c : cand) (data : option bytes) : list attempt :=
  match data with
  | Some b => [(c, b)]
  | None => []
  end.

(** The first [try] of the decompression: the attempts made, and either the
    exception or [decompressed] with the new [comp_type]. *)
Definition decompress_declared (comp_type : option Z)
           (compressed : option bytes)
  : list attempt * (string + (bytes * option Z)) :=
  if opt_Z_eqb comp_type 1 then
    (logged gzip compressed,
     match decompress_with gzip compressed with
     | inl e => inl e
     | inr d => inr (d, comp_type)
     end)
  else if opt_Z_eqb comp_type 2 then
    (logged zlib compressed,
     match decompress_with zlib compressed with
     | inl e => inl e
     | inr d => inr (d, comp_type)
     end)
  else
    match decompress_with gzip compressed with
    | inr d => (logged gzip compressed, inr (d, Some 1))
    | inl _ =>
        (logged gzip compressed ++ logged zlib compressed,
         match decompress_with zlib compressed with
         | inl e => inl e
         | inr d => inr (d, Some 2)
         end)
    end.

(** The fallback of the [except] branch: a signature searched in the raw
    sector block, and one decompression of the slice that starts there. *)
Definition rescan_raw (raw : bytes) : list attempt * option (bytes * Z) :=
  let gz := bytes_find raw [x1f; x8b] in
  let zpos := bytes_find raw [x78] in
  let candidate :=
    if negb (gz =? -1) then Some (slice_from raw gz, gzip)
    else if negb (zpos =? -1) then Some (slice_from raw zpos, zlib)
    else None in
  match candidate with
  | Some (c, ctype) =>
      if nonempty c then
        ([(ctype, c)],
         match decompress_with ctype (Some c) with
         | inr d => Some (d, match ctype with gzip => 1 | zlib => 2 end)
         | inl _ => None
         end)
      else ([], None)
  | None => ([], None)
  end.

(** The whole decompression of [main]: attempts, and [decompressed] (with
    [comp_type]) when it is not [None] at the end. *)
Definition decompress_chunk (info : Info.t)
  : list attempt * option (bytes * option Z) :=
  let compressed := Info.compressed_bytes info in
  let comp_type := get_compression info in
  match decompress_declared comp_type compressed with
  | (log, inr r) => (log, Some r)
  | (log, inl _) =>
      match Info.raw_sector_data info with
      | Some raw =>
          if nonempty raw then
            match rescan_raw raw with
            | (log', Some (d, c)) => (log ++ log', Some (d, Some c))
            | (log', None) => (log ++ log', None)
            end
          else (log, None)
      | None => (log, None)
      end
  end.

Definition truthy (s : option string) : option string :=
  match s with
  | Some EmptyString => None
  | _ => s
  end.

Definition write_raw_nbt (a : args) (data : bytes) : list write :=
  match truthy (raw_nbt_out a) with
  | Some name => [WriteBytes name data]
  | None => []
  end.

(** The files written by [main] once [info] is known. *)
Definition main_writes (a : args) (info : Info.t) : list write :=
  let d := make_diag info in
  if negb (Info.found info) then
    match Info.decompressed_bytes info with
    | Some dec =>
        match nbt_to_json dec with
        | inr js => WriteJson (out a) d js :: write_raw_nbt a dec
        | inl _ => write_raw_nbt a dec
        end
    | None => []
    end
  else
    match decompress_chunk info with
    | (_, None) =>
        [WriteBytes (out a ++ ".chunk_compressed.bin")%string
           (match Info.compressed_bytes info with
            | Some b => b
            | None => []
            end)]
    | (_, Some (decompressed, _)) =>
        match nbt_to_json decompressed with
        | inr js => WriteJson (out a) d js :: write_raw_nbt a decompressed
        | inl _ =>
            match truthy (raw_nbt_out a) with
            | Some name => [WriteBytes name decompressed]
            | None =>
                [WriteBytes (out a ++ ".decompressed.nbt")%string
                   decompressed]
            end
        end
    end.

Definition main (a : args) (file : string + bytes) (cx cz : Z) : list write :=
  main_writes a
    (extract_chunk_raw_from_region gzip_decompress zlib_decompress file cx cz).

End Main.

(** ** [nbt_to_json_safe]

    The Python values the conversion distinguishes: [bytes], [dict], [list],
    the atoms it returns unchanged ([str], [int], [float], [bool], [None])
    and any other object, of which only the text of [str(obj)] matters.  A
    float is kept as its 64-bit pattern; no arithmetic is done on it.  A
    dictionary is its items in insertion order; of a key only [str(k)] is
    used. *)

Set Warnings "-register-all".

Inductive pykey :=
| KStr (s : string)
| KObj (text : string).

Inductive pyval :=
| VBytes (b : bytes)
| VDict (items : list (pykey * pyval))
| VList (l : list pyval)
| VStr (s : string)
| VInt (z : Z)
| VFloat (bits : Z)
| VBool (b : bool)
| VNone
| VObj (text : string).

(** [str(k)] *)
Definition str_of_key (k : pykey) : string :=
  match k with
  | KStr s => s
  | KObj text => text
  end.

Definition hex_digit (n : N) : ascii :=
  nth (N.to_nat n)
      ["0"; "1"; "2"; "3"; "4"; "5"; "6"; "7"; "8"; "9";
       "a"; "b"; "c"; "d"; "e"; "f"]%char "0"%char.

(** [binascii.hexlify(b).decode('ascii')] *)
Fixpoint hexlify (b : bytes) : string :=
  match b with
  | [] => EmptyString
  | x :: b' =>
      String (hex_digit (N.div (Byte.to_N x) 16))
             (String (hex_digit (N.modulo (Byte.to_N x) 16)) (hexlify b'))
  end.

(** [d[k] = v] on a dictionary whose keys are strings: an existing key keeps
    its place and takes the new value, a new key goes last. *)
Fixpoint dict_set (d : list (string * pyval)) (k : string) (v : pyval)
  : list (string * pyval) :=
  match d with
  | [] => [(k, v)]
  | (k', v') :: d' =>
      if String.eqb k' k then (k', v) :: d' else (k', v') :: dict_set d' k v
  end.

(** The dictionary a comprehension builds from its items, in order. *)
Definition dict_of_items (items : list (string * pyval)) : list (string * pyval) :=
  fold_left (fun d kv => dict_set d (fst kv) (snd kv)) items [].

Definition str_keys (d : list (string * pyval)) : list (pykey * pyval) :=
  map (fun kv => (KStr (fst kv), snd kv)) d.

Fixpoint nbt_to_json_safe (obj : pyval) : pyval :=
  match obj with
  | VBytes b => VStr (hexlify b)
  | VDict items =>
      VDict (str_keys
               (dict_of_items
                  (map (fun kv => let '(k, v) := kv in
                                  (str_of_key k, nbt_to_json_safe v))
                       items)))
  | VList l => VList (map nbt_to_json_safe l)
  | VStr _ | VInt _ | VFloat _ | VBool _ | VNone => obj
  | VObj text => VStr text
  end.

(** ** Predicates used in the statements *)

(** [needle] occurs in [hay] at index [p]. *)
Definition occurs_at (needle hay : bytes) (p : Z) : Prop :=
  starts_with needle (slice_from hay p) = true.

(** The test of the loop body: [78] at [off], a byte after it, and that byte
    one of [9c], [01], [da]. *)
Definition zlib_pair_at (block : bytes) (off : Z) : bool :=
  Byte.eqb (byte_at block off) x78 && (off + 1 <? len block)
  && zlib_flag (byte_at block (off + 1)).

(** How [extract_run] turns the outcome of the body into the returned
    dictionary (the outer [except] and the final [return res]). *)
Definition finish (o : (string + unit) * state) : Info.t :=
  match o with
  | (inl e, s) =>
      Info.append_error ("IO error opening region: " ++ e)%string (res s)
  | (inr _, s) => res s
  end.

(** [r'] has the location, length and raw block of [r], and the diagnostics
    of [r] followed by further ones. *)
Definition keeps (r r' : Info.t) : Prop :=
  Info.offset_sector r' = Info.offset_sector r /\
  Info.sector_count r' = Info.sector_count r /\
  Info.length r' = Info.length r /\
  Info.raw_sector_data r' = Info.raw_sector_data r /\
  exists rest, Info.errors r' = Info.errors r ++ rest.

(** What the comprehension of [nbt_to_json_safe] makes of one item. *)
Definition convert_item (kv : pykey * pyval) : string * pyval :=
  (str_of_key (fst kv), nbt_to_json_safe (snd kv)).

(** The fallback of [main] over the raw sector block, spelled out: no
    attempt without a raw block; otherwise one gzip attempt on the block from
    its first [1f 8b] to its end, else one zlib attempt on the block from
    its first [78] to its end, else no attempt.  The attempts, and the
    bytes with their tag when the attempt succeeds. *)
Definition raw_fallback (gz zl : bytes -> string + bytes) (raw : option bytes)
  : list attempt * option (bytes * option Z) :=
  match raw with
  | None => ([], None)
  | Some raw =>
      let g := bytes_find raw [x1f; x8b] in
      let z := bytes_find raw [x78] in
      if negb (g =? -1) then
        ([(gzip, slice_from raw g)],
         match gz (slice_from raw g) with
         | inr d => Some (d, Some 1)
         | inl _ => None
         end)
      else if negb (z =? -1) then
        ([(zlib, slice_from raw z)],
         match zl (slice_from raw z) with
         | inr d => Some (d, Some 2)
         | inl _ => None
         end)
      else ([], None)
  end.

(** The method tag [main] and the scan store for a method. *)
Definition cand_tag (c : cand) : Z :=
  match c with gzip => 1 | zlib => 2 end.

(** [res] after the messages [es] were appended in order. *)
Definition with_errors (es : list string) (r : Info.t) : Info.t :=
  fold_left (fun r' msg => Info.append_error msg r') es r.

(** The three shapes of the dictionary an extraction can return, over the
    dictionary [r0] it had when the entry was located. *)
Inductive outcome (r0 : Info.t) : Info.t -> Prop :=
| out_failed (es : list string) :
    (List.length es <= 3)%nat -> outcome r0 (with_errors es r0)
| out_standard (L : Z) (c : option Z) (payload raw : bytes) :
    outcome r0 (Info.set_standard L c payload raw r0)
| out_recovered (es : list string) (ty : cand) (tail dec : bytes) :
    (List.length es <= 2)%nat ->
    outcome r0 (Info.set_recovered (cand_tag ty) tail dec (with_errors es r0)).

(** A value [json.dump] accepts as it is: no [bytes], no foreign object, and
    only string keys. *)
Fixpoint json_safe (v : pyval) : bool :=
  match v with
  | VBytes _ | VObj _ => false
  | VDict items =>
      forallb (fun kv => let '(k, w) := kv in
                         match k with KStr _ => json_safe w | KObj _ => false end)
              items
  | VList l => forallb json_safe l
  | VStr _ | VInt _ | VFloat _ | VBool _ | VNone => true
  end.

(** No two items of a dictionary of the value have the same [str(k)]. *)
Fixpoint distinct_keys (v : pyval) : Prop :=
  match v with
  | VDict items =>
      NoDup (map (fun kv => str_of_key (fst kv)) items) /\
      (fix all (l : list (pykey * pyval)) : Prop :=
         match l with
         | [] => True
         | (_, w) :: l' => distinct_keys w /\ all l'
         end) items
  | VList l =>
      (fix all (l : list pyval) : Prop :=
         match l with
         | [] => True
         | w :: l' => distinct_keys w /\ all l'
         end) l
  | _ => True
  end.

Definition is_hex_digit (c : ascii) : bool :=
  existsb (Ascii.eqb c)
          ["0"; "1"; "2"; "3"; "4"; "5"; "6"; "7"; "8"; "9";
           "a"; "b"; "c"; "d"; "e"; "f"]%char.

Fixpoint string_forall (f : ascii -> bool) (s : string) : bool :=
  match s with
  | EmptyString => true
  | String c s' => f c && string_forall f s'
  end.

Definition is_write_bytes (w : write) : bool :=
  match w with WriteBytes _ _ => true | WriteJson _ _ _ => false end.

Definition is_write_json (w : write) : bool :=
  match w with WriteJson _ _ _ => true | WriteBytes _ _ => false end.

(** ** Sample inputs for the concrete cases

    The sample decompressors do what [gzip.decompress] and [zlib.decompress]
    do on the empty input (the first returns the empty result, the second
    raises) and reject every other input. *)

Definition sample_gzip (b : bytes) : string + bytes :=
  match b with
  | [] => inr []
  | _ :: _ => inl "Not a gzipped file"
  end.

Definition sample_zlib (b : bytes) : string + bytes :=
  match b with
  | [] => inl "Error -5 while decompressing data: incomplete or truncated stream"
  | _ :: _ => inl "Error -3 while decompressing data: incorrect header check"
  end.

(** A stand-in decompressor that accepts a stream starting with [78 9c] and
    returns the bytes after the two, and rejects everything else. *)
Definition sample_zlib_stored (b : bytes) : string + bytes :=
  match b with
  | x78 :: x9c :: rest => inr rest
  | _ => inl "Error -3 while decompressing data: incorrect header check"
  end.

Definition sample_json (b : bytes) : string + string := inr "{}".


Definition sample_args : args := mkArgs "chunk_out.json" None.

(** A region file whose slot 0 holds [entry0] (4 bytes), whose other slots
    and timestamps are zero, and whose sectors after the header are [rest]. *)
Definition region_file (entry0 rest : bytes) : bytes :=
  entry0 ++ repeat x00 (Z.to_nat 8188) ++ rest.

Arguments slice : simpl never.
Arguments slice_from : simpl never.
Arguments len : simpl never.
Arguments read_bytes : simpl never.
Arguments decode_offsets : simpl never.
Arguments str_of_Z : simpl never.
Arguments bytes_find : simpl never.
Arguments find_candidate : simpl never.

(** * Properties *)

(** ** Lists and slices *)

Lemma len_nonneg {A} (l : list A) : 0 <= len l.
Proof. unfold len. lia. Qed.

Lemma len_nil {A} : len (@nil A) = 0.
Proof. reflexivity. Qed.

Lemma len_cons {A} (a : A) (l : list A) : len (a :: l) = len l + 1.
Proof. unfold len. cbn [List.length]. lia. Qed.

Lemma len_app {A} (l1 l2 : list A) : len (l1 ++ l2) = len l1 + len l2.
Proof. unfold len. rewrite length_app. lia. Qed.

Lemma len_slice_from {A} (l : list A) (a : Z) :
  0 <= a -> len (slice_from l a) = Z.max 0 (len l - a).
Proof.
  intros Ha. unfold slice_from, len. rewrite length_skipn. lia.
Qed.

Lemma len_slice {A} (l : list A) (a b : Z) :
  0 <= a -> len (slice l a b) = Z.max 0 (Z.min (b - a) (len l - a)).
Proof.
  intros Ha. unfold slice, len. rewrite length_firstn, length_skipn. lia.
Qed.

Lemma slice_from_0 {A} (l : list A) : slice_from l 0 = l.
Proof. reflexivity. Qed.

Lemma slice_from_cons {A} (a : A) (l : list A) (p : Z) :
  0 <= p -> slice_from (a :: l) (p + 1) = slice_from l p.
Proof.
  intros Hp. unfold slice_from.
  replace (Z.to_nat (p + 1)) with (S (Z.to_nat p)) by lia. reflexivity.
Qed.

Lemma byte_at_cons (a : byte) (l : bytes) (p : Z) :
  0 <= p -> byte_at (a :: l) (p + 1) = byte_at l p.
Proof.
  intros Hp. unfold byte_at.
  replace (Z.to_nat (p + 1)) with (S (Z.to_nat p)) by lia. reflexivity.
Qed.

Lemma byte_at_slice (l : bytes) (a b i : Z) :
  0 <= a -> 0 <= i < len (slice l a b) ->
  byte_at (slice l a b) i = byte_at l (a + i).
Proof.
  intros Ha Hi. rewrite len_slice in Hi by exact Ha.
  unfold byte_at, slice.
  rewrite nth_firstn.
  replace (Z.to_nat i <? Z.to_nat (b - a))%nat with true
    by (symmetry; apply Nat.ltb_lt; lia).
  rewrite nth_skipn. f_equal. lia.
Qed.

Lemma byte_at_slice_from (l : bytes) (a i : Z) :
  0 <= a -> 0 <= i -> byte_at (slice_from l a) i = byte_at l (a + i).
Proof.
  intros Ha Hi. unfold byte_at, slice_from.
  rewrite nth_skipn. f_equal. lia.
Qed.

(** ** [chunk_index] is the non-negative remainder modulo 32 *)

Lemma land_31 (x : Z) : Z.land x 31 = x mod 32.
Proof. exact (Z.land_ones x 5 ltac:(lia)). Qed.

Lemma chunk_index_mod (cx cz : Z) :
  chunk_index cx cz = cx mod 32 + (cz mod 32) * 32.
Proof. unfold chunk_index. now rewrite !land_31. Qed.

Lemma chunk_index_range (cx cz : Z) : 0 <= chunk_index cx cz <= 1023.
Proof.
  rewrite chunk_index_mod.
  pose proof (Z.mod_pos_bound cx 32 ltac:(lia)).
  pose proof (Z.mod_pos_bound cz 32 ltac:(lia)).
  lia.
Qed.

(** ** [bytes.find] returns the first occurrence *)

Lemma slice_from_nil {A} (p : Z) : slice_from (@nil A) p = [].
Proof. unfold slice_from. now rewrite skipn_nil. Qed.

Lemma starts_with_nil_r (needle : bytes) :
  needle <> [] -> starts_with needle [] = false.
Proof. destruct needle; [congruence | reflexivity]. Qed.

Lemma find_from_spec (needle hay : bytes) :
  needle <> [] ->
  forall i,
    (find_from needle hay i = -1 /\
     forall p, 0 <= p -> ~ occurs_at needle hay p)
    \/
    (i <= find_from needle hay i < i + len hay /\
     occurs_at needle hay (find_from needle hay i - i) /\
     forall p, 0 <= p < find_from needle hay i - i -> ~ occurs_at needle hay p).
Proof.
  intros Hne. unfold occurs_at. induction hay as [|h hay IH]; intros i.
  - left. cbn [find_from]. rewrite starts_with_nil_r by exact Hne.
    split; [reflexivity|]. intros p _. rewrite slice_from_nil.
    rewrite starts_with_nil_r by exact Hne. discriminate.
  - cbn [find_from]. destruct (starts_with needle (h :: hay)) eqn:Hs.
    + right. rewrite len_cons. pose proof (len_nonneg hay).
      replace (i - i) with 0 by lia. rewrite slice_from_0.
      split; [lia|]. split; [exact Hs | intros p Hp; lia].
    + assert (Hshift : forall p, 0 <= p ->
                starts_with needle (slice_from (h :: hay) p) = true ->
                1 <= p /\ starts_with needle (slice_from hay (p - 1)) = true).
      { intros p Hp Hocc. destruct (Z.eq_dec p 0) as [->|Hnz].
        - rewrite slice_from_0 in Hocc. congruence.
        - split; [lia|]. replace p with ((p - 1) + 1) in Hocc by lia.
          rewrite slice_from_cons in Hocc by lia. exact Hocc. }
      destruct (IH (i + 1)) as [[Hr Hnone] | [Hr [Hocc Hfirst]]].
      * left. split; [exact Hr|]. intros p Hp Hocc.
        destruct (Hshift p Hp Hocc) as [Hp1 Hocc'].
        exact (Hnone (p - 1) ltac:(lia) Hocc').
      * right. rewrite len_cons.
        set (r := find_from needle hay (i + 1)) in *.
        split; [lia|]. split.
        -- replace (r - i) with ((r - (i + 1)) + 1) by lia.
           rewrite slice_from_cons by lia. exact Hocc.
        -- intros p Hp Hocc'. destruct (Hshift p ltac:(lia) Hocc') as [Hp1 Ho].
           exact (Hfirst (p - 1) ltac:(lia) Ho).
Qed.

Lemma bytes_find_cases (hay needle : bytes) :
  needle <> [] ->
  (bytes_find hay needle = -1 /\
   forall p, 0 <= p -> ~ occurs_at needle hay p)
  \/
  (0 <= bytes_find hay needle < len hay /\
   occurs_at needle hay (bytes_find hay needle) /\
   forall p, 0 <= p < bytes_find hay needle -> ~ occurs_at needle hay p).
Proof.
  intros Hne. unfold bytes_find.
  destruct (find_from_spec needle hay Hne 0) as [H | [Hr [Ho Hf]]].
  - left. exact H.
  - right. rewrite Z.sub_0_r in Ho, Hf. split; [lia|]. split; assumption.
Qed.

(** An occurrence anywhere makes [find] succeed, at or before it. *)
Lemma bytes_find_le (hay needle : bytes) (p : Z) :
  needle <> [] -> 0 <= p -> occurs_at needle hay p ->
  0 <= bytes_find hay needle <= p /\ bytes_find hay needle < len hay.
Proof.
  intros Hne Hp Hocc.
  destruct (bytes_find_cases hay needle Hne) as [[_ Hnone] | [Hr [_ Hfirst]]].
  - exfalso. exact (Hnone p Hp Hocc).
  - split; [split; [lia|] | lia].
    destruct (Z_le_gt_dec (bytes_find hay needle) p) as [Hle|Hgt]; [exact Hle|].
    exfalso. exact (Hfirst p ltac:(lia) Hocc).
Qed.

Lemma slice_from_unfold (l : bytes) (p : Z) :
  0 <= p < len l -> slice_from l p = byte_at l p :: slice_from l (p + 1).
Proof.
  revert p. induction l as [|a l IH]; intros p Hp.
  - rewrite (@len_nil byte) in Hp. lia.
  - rewrite len_cons in Hp. destruct (Z.eq_dec p 0) as [->|Hnz].
    + reflexivity.
    + replace p with ((p - 1) + 1) at 1 2 by lia.
      rewrite slice_from_cons, byte_at_cons by lia.
      replace (p + 1) with (p + 1 - 1 + 1) by lia.
      rewrite slice_from_cons by lia.
      replace (p + 1 - 1) with (p - 1 + 1) by lia.
      apply IH. lia.
Qed.

Lemma slice_from_beyond {A} (l : list A) (p : Z) :
  len l <= p -> slice_from l p = [].
Proof.
  intros Hp. unfold slice_from. apply skipn_all2. unfold len in Hp. lia.
Qed.

Lemma occurs_at_byte (b : byte) (hay : bytes) (p : Z) :
  0 <= p ->
  occurs_at [b] hay p <-> p < len hay /\ byte_at hay p = b.
Proof.
  intros Hp. unfold occurs_at.
  destruct (Z_lt_ge_dec p (len hay)) as [Hlt|Hge].
  - rewrite slice_from_unfold by lia. cbn [starts_with].
    rewrite andb_true_r. split.
    + intros H. apply byte_dec_bl in H. split; [lia | now symmetry].
    + intros [_ H]. apply byte_dec_lb. now symmetry.
  - rewrite slice_from_beyond by lia. cbn [starts_with]. split.
    + discriminate.
    + intros [H _]. lia.
Qed.

Lemma occurs_at_pair (a b : byte) (hay : bytes) (p : Z) :
  0 <= p ->
  occurs_at [a; b] hay p <->
  p + 1 < len hay /\ byte_at hay p = a /\ byte_at hay (p + 1) = b.
Proof.
  intros Hp. unfold occurs_at.
  destruct (Z_lt_ge_dec p (len hay)) as [Hlt|Hge].
  - rewrite slice_from_unfold by lia.
    destruct (Z_lt_ge_dec (p + 1) (len hay)) as [Hlt'|Hge'].
    + rewrite (slice_from_unfold hay (p + 1)) by lia. cbn [starts_with].
      rewrite andb_true_r, andb_true_iff. split.
      * intros [H1 H2]. apply byte_dec_bl in H1, H2.
        repeat split; [lia | now symmetry | now symmetry].
      * intros [_ [H1 H2]]. split; apply byte_dec_lb; now symmetry.
    + rewrite (slice_from_beyond hay (p + 1)) by lia. cbn [starts_with].
      rewrite andb_false_r. split; [discriminate | intros [H _]; lia].
  - rewrite slice_from_beyond by lia. cbn [starts_with]. split.
    + discriminate.
    + intros [H _]. lia.
Qed.

(** ** The probe for a zlib header *)

Lemma zlib_probe_cons (block : bytes) (off : Z) (offs : list Z) :
  zlib_probe block (off :: offs) =
  if zlib_pair_at block off then off else zlib_probe block offs.
Proof.
  unfold zlib_pair_at. cbn [zlib_probe].
  destruct (Byte.eqb (byte_at block off) x78); [|reflexivity].
  destruct (off + 1 <? len block); [|reflexivity].
  destruct (zlib_flag (byte_at block (off + 1))); reflexivity.
Qed.

Lemma zlib_probe_in (block : bytes) (offs : list Z) :
  zlib_probe block offs = -1 \/
  (In (zlib_probe block offs) offs /\
   zlib_pair_at block (zlib_probe block offs) = true).
Proof.
  induction offs as [|off offs IH].
  - left. reflexivity.
  - rewrite zlib_probe_cons. destruct (zlib_pair_at block off) eqn:Hp.
    + right. split; [now left | exact Hp].
    + destruct IH as [IH | [IH1 IH2]]; [now left | right].
      split; [now right | exact IH2].
Qed.

Lemma py_range_empty (a b : Z) : b <= a -> py_range a b = [].
Proof.
  intros H. unfold py_range. replace (Z.to_nat (b - a)) with 0%nat by lia.
  reflexivity.
Qed.

Lemma py_range_cons (a b : Z) :
  a < b -> py_range a b = a :: py_range (a + 1) b.
Proof.
  intros H. unfold py_range.
  replace (Z.to_nat (b - a)) with (S (Z.to_nat (b - (a + 1)))) by lia.
  cbn [seq map]. f_equal; [lia|].
  rewrite <- seq_shift, map_map. apply map_ext. intros i. lia.
Qed.

Lemma in_py_range (a b o : Z) : In o (py_range a b) <-> a <= o < b.
Proof.
  unfold py_range. rewrite in_map_iff. split.
  - intros [i [<- Hi]]. apply in_seq in Hi. lia.
  - intros H. exists (Z.to_nat (o - a)). split; [lia|]. apply in_seq. lia.
Qed.

Lemma length_py_range (a b : Z) :
  List.length (py_range a b) = Z.to_nat (b - a).
Proof. unfold py_range. now rewrite length_map, length_seq. Qed.

Lemma zlib_probe_range_miss (block : bytes) (a b : Z) :
  (forall q, a <= q < b -> zlib_pair_at block q = false) ->
  zlib_probe block (py_range a b) = -1.
Proof.
  intros Hnone.
  destruct (zlib_probe_in block (py_range a b)) as [H | [Hin Hp]]; [exact H|].
  apply in_py_range in Hin. rewrite (Hnone _ Hin) in Hp. discriminate.
Qed.

Lemma zlib_probe_range_hit (block : bytes) (b p : Z) :
  forall n a,
    Z.to_nat (p - a) = n -> a <= p < b ->
    zlib_pair_at block p = true ->
    (forall q, a <= q < p -> zlib_pair_at block q = false) ->
    zlib_probe block (py_range a b) = p.
Proof.
  induction n as [|n IH]; intros a Hn Hab Hp Hfirst.
  - assert (a = p) by lia. subst a.
    rewrite py_range_cons, zlib_probe_cons, Hp by lia. reflexivity.
  - rewrite py_range_cons, zlib_probe_cons by lia.
    rewrite (Hfirst a) by lia.
    apply IH; [lia | lia | exact Hp | intros q Hq; apply Hfirst; lia].
Qed.

Lemma zlib_pair_at_78 (block : bytes) (p : Z) :
  0 <= p -> zlib_pair_at block p = true -> occurs_at [x78] block p.
Proof.
  intros H0 H. unfold zlib_pair_at in H.
  apply andb_true_iff in H as [H _]. apply andb_true_iff in H as [H1 H2].
  apply occurs_at_byte; [exact H0|]. apply Z.ltb_lt in H2.
  apply byte_dec_bl in H1. split; [lia | exact H1].
Qed.

(** ** The candidate search *)

Lemma cons_not_nil {A} (a : A) (l : list A) : a :: l <> [].
Proof. discriminate. Qed.

Lemma find_candidate_gzip (block : bytes) (scan_start : Z) :
  bytes_find block [x1f; x8b] <> -1 ->
  find_candidate block scan_start =
  Some (scan_start + bytes_find block [x1f; x8b], gzip).
Proof.
  intros H. unfold find_candidate.
  apply Z.eqb_neq in H. now rewrite H.
Qed.

Lemma find_candidate_no_gzip (block : bytes) (scan_start : Z) :
  bytes_find block [x1f; x8b] = -1 ->
  bytes_find block [x78] <> -1 ->
  find_candidate block scan_start =
  let z_pos := bytes_find block [x78] in
  let found :=
    zlib_probe block (py_range z_pos (Z.min (z_pos + 32) (len block))) in
  if found =? -1 then None else Some (scan_start + found, zlib).
Proof.
  intros Hg Hz. unfold find_candidate. rewrite Hg, Z.eqb_refl.
  apply Z.eqb_neq in Hz. rewrite Hz. cbn [negb].
  cbv zeta. destruct (zlib_probe _ _ =? -1); reflexivity.
Qed.

Lemma find_candidate_bounds (block : bytes) (scan_start c : Z) (ty : cand) :
  find_candidate block scan_start = Some (c, ty) ->
  scan_start <= c < scan_start + len block.
Proof.
  unfold find_candidate.
  destruct (bytes_find block [x1f; x8b] =? -1) eqn:Hg; cbn [negb].
  - destruct (bytes_find block [x78] =? -1) eqn:Hz; cbn [negb];
      [discriminate|].
    apply Z.eqb_neq in Hz.
    destruct (bytes_find_cases block [x78] (cons_not_nil _ _))
      as [[Hz' _] | [Hr _]]; [contradiction|].
    set (z_pos := bytes_find block [x78]) in *.
    destruct (zlib_probe_in block
                (py_range z_pos (Z.min (z_pos + 32) (len block))))
      as [Hm | [Hin _]].
    + rewrite Hm. discriminate.
    + apply in_py_range in Hin.
      destruct (zlib_probe _ _ =? -1); cbn [negb]; [discriminate|].
      intros [= <- _]. lia.
  - apply Z.eqb_neq in Hg.
    destruct (bytes_find_cases block [x1f; x8b] (cons_not_nil _ _))
      as [[Hg' _] | [Hr _]]; [contradiction|].
    intros [= <- _]. lia.
Qed.

(** ** The header *)

Lemma byte_val_nonneg (b : byte) : 0 <= byte_val b.
Proof. unfold byte_val. lia. Qed.

Lemma struct_unpack_I_nonneg (b : bytes) (v : Z) :
  struct_unpack_I b = inr v -> 0 <= v.
Proof.
  destruct b as [|b0 [|b1 [|b2 [|b3 [|b4 b]]]]]; cbn; try discriminate.
  intros [= <-].
  pose proof (byte_val_nonneg b0). pose proof (byte_val_nonneg b1).
  pose proof (byte_val_nonneg b2). pose proof (byte_val_nonneg b3). nia.
Qed.

Lemma struct_unpack_I_total (b : bytes) :
  len b = 4 -> exists v, struct_unpack_I b = inr v.
Proof.
  destruct b as [|b0 [|b1 [|b2 [|b3 [|b4 b]]]]]; intros H;
    try (exfalso; unfold len in H; cbn [List.length] in H; lia).
  eexists. reflexivity.
Qed.

Lemma map_err_length {A B} (f : A -> string + B) (l : list A) (bs : list B) :
  map_err f l = inr bs -> List.length bs = List.length l.
Proof.
  revert bs. induction l as [|a l IH]; intros bs; cbn [map_err].
  - intros [= <-]. reflexivity.
  - destruct (f a); [discriminate|].
    destruct (map_err f l); [discriminate|].
    intros [= <-]. cbn [List.length]. f_equal. now apply IH.
Qed.

Lemma map_err_total {A B} (f : A -> string + B) (l : list A) :
  (forall a, In a l -> exists b, f a = inr b) ->
  exists bs, map_err f l = inr bs.
Proof.
  induction l as [|a l IH]; intros H; cbn [map_err].
  - now eexists.
  - destruct (H a (or_introl eq_refl)) as [b ->].
    destruct IH as [bs ->]; [intros; apply H; now right|]. now eexists.
Qed.

Lemma decode_offsets_len (header : bytes) (offsets : list Z) :
  decode_offsets header = inr offsets -> len offsets = 1024.
Proof.
  unfold decode_offsets. intros H. apply map_err_length in H.
  unfold len. rewrite H, length_py_range. lia.
Qed.

Lemma decode_offsets_total (header : bytes) :
  8192 <= len header -> exists offsets, decode_offsets header = inr offsets.
Proof.
  intros Hlen. unfold decode_offsets. apply map_err_total.
  intros i Hi. apply in_py_range in Hi.
  apply struct_unpack_I_total. rewrite len_slice by lia. lia.
Qed.

Lemma list_index_ok (offsets : list Z) (idx : Z) :
  0 <= idx < len offsets ->
  list_index offsets idx = inr (nth (Z.to_nat idx) offsets 0).
Proof.
  intros H. unfold list_index.
  assert (E1 : (idx <? 0) = false) by (apply Z.ltb_ge; lia).
  assert (E2 : (len offsets <=? idx) = false) by (apply Z.leb_gt; lia).
  cbv zeta. rewrite E1. cbv iota. rewrite E1, E2. reflexivity.
Qed.

(** ** One step of the file object at a time *)

Lemma read_bytes_slice (data : bytes) (p n : Z) :
  0 <= n -> read_bytes data p n = slice data p (p + n).
Proof.
  intros H. unfold read_bytes.
  replace (n =? -1) with false by (symmetry; apply Z.eqb_neq; lia).
  reflexivity.
Qed.

Lemma len_read_bytes (data : bytes) (p n : Z) :
  0 <= p -> 0 <= n ->
  len (read_bytes data p n) = Z.max 0 (Z.min n (len data - p)).
Proof.
  intros Hp Hn. rewrite read_bytes_slice by exact Hn.
  rewrite len_slice by exact Hp. f_equal. f_equal. lia.
Qed.

Lemma bind_inr {A B} (m : M A) (k : A -> M B) (s s' : state) (a : A) :
  m s = (inr a, s') -> bind m k s = k a s'.
Proof. intros H. unfold bind. now rewrite H. Qed.

Lemma bind_inl {A B} (m : M A) (k : A -> M B) (s s' : state) (e : string) :
  m s = (inl e, s') -> bind m k s = (inl e, s').
Proof. intros H. unfold bind. now rewrite H. Qed.

Lemma f_seek_ok (n : Z) (data : bytes) (p : Z) (rs : list (Z * Z)) (r : Info.t) :
  0 <= n ->
  f_seek n (mkState (mkHandle data p rs) r)
  = (inr tt, mkState (mkHandle data n rs) r).
Proof.
  intros H. unfold f_seek.
  replace (n <? 0) with false by (symmetry; apply Z.ltb_ge; lia).
  reflexivity.
Qed.

Lemma f_read_ok (n : Z) (data : bytes) (p : Z) (rs : list (Z * Z)) (r : Info.t) :
  0 <= n ->
  f_read n (mkState (mkHandle data p rs) r)
  = (inr (slice data p (p + n)),
     mkState (mkHandle data (p + len (slice data p (p + n))) (rs ++ [(p, n)])) r).
Proof.
  intros H. unfold f_read.
  replace (n <? -1) with false by (symmetry; apply Z.ltb_ge; lia).
  cbn [fh content pos reads res]. rewrite read_bytes_slice by exact H.
  reflexivity.
Qed.

Lemma read_region_header_ok (data : bytes) (r : Info.t) (offsets : list Z) :
  8192 <= len data ->
  decode_offsets (slice data 0 8192) = inr offsets ->
  read_region_header (mkState (open_rb data) r)
  = (inr offsets, mkState (mkHandle data 8192 [(0, 8192)]) r).
Proof.
  intros Hlen Hdec. unfold read_region_header, open_rb.
  rewrite (bind_inr _ _ _ _ _ (f_seek_ok 0 data 0 [] r ltac:(lia))).
  rewrite (bind_inr _ _ _ _ _ (f_read_ok 8192 data 0 [] r ltac:(lia))).
  change (0 + 8192) with 8192.
  assert (Hl : len (slice data 0 8192) = 8192) by (rewrite len_slice; lia).
  rewrite Hl, Hdec. reflexivity.
Qed.

Lemma read_region_header_short (data : bytes) (r : Info.t) :
  len data < 8192 ->
  read_region_header (mkState (open_rb data) r)
  = (inl "Region header too short",
     mkState (mkHandle data (len data) [(0, 8192)]) r).
Proof.
  intros Hlen. unfold read_region_header, open_rb.
  rewrite (bind_inr _ _ _ _ _ (f_seek_ok 0 data 0 [] r ltac:(lia))).
  rewrite (bind_inr _ _ _ _ _ (f_read_ok 8192 data 0 [] r ltac:(lia))).
  change (0 + 8192) with 8192. pose proof (len_nonneg data).
  assert (Hl : len (slice data 0 8192) = len data) by (rewrite len_slice; lia).
  rewrite Hl.
  replace (len data <? 8192) with true by (symmetry; apply Z.ltb_lt; lia).
  reflexivity.
Qed.

(** ** The standard read, case by case *)

Ltac step_with H := rewrite (bind_inr _ _ _ _ _ H).

Lemma bind_ret {A B} (a : A) (k : A -> M B) (s : state) :
  bind (ret a) k s = k a s.
Proof. reflexivity. Qed.

Lemma bind_add_error {B} (msg : string) (k : unit -> M B) (s : state) :
  bind (add_error msg) k s
  = k tt (mkState (fh s) (Info.append_error msg (res s))).
Proof. reflexivity. Qed.

Lemma bind_update_res {B} (f : Info.t -> Info.t) (k : unit -> M B) (s : state) :
  bind (update_res f) k s = k tt (mkState (fh s) (f (res s))).
Proof. reflexivity. Qed.

Lemma standard_read_short_header
      (start : Z) (data : bytes) (p : Z) (rs : list (Z * Z)) (r : Info.t) :
  0 <= start -> len data - start < 4 ->
  standard_read start (mkState (mkHandle data p rs) r)
  = (inr false,
     mkState (mkHandle data (start + len (slice data start (start + 4)))
                       (rs ++ [(start, 4)]))
             (Info.append_error "Couldn't read length header (short read)." r)).
Proof.
  intros Hs Hshort. unfold standard_read, try_except.
  step_with (f_seek_ok start data p rs r Hs).
  step_with (f_read_ok 4 data start rs r ltac:(lia)).
  assert (Hl : (len (slice data start (start + 4)) <? 4) = true).
  { apply Z.ltb_lt. rewrite len_slice by exact Hs. lia. }
  rewrite Hl, bind_add_error. reflexivity.
Qed.

Lemma standard_read_mismatch
      (start : Z) (data : bytes) (p : Z) (rs : list (Z * Z)) (r : Info.t)
      (L : Z) :
  0 <= start -> start + 4 <= len data ->
  struct_unpack_I (slice data start (start + 4)) = inr L ->
  len data - (start + 4) < L ->
  standard_read start (mkState (mkHandle data p rs) r)
  = (inr false,
     mkState (mkHandle data (len data) ((rs ++ [(start, 4)]) ++ [(start + 4, L)]))
             (Info.append_error
                (msg_length_mismatch L (len data - (start + 4))) r)).
Proof.
  intros Hs Hhead Hunpack Hshort. unfold standard_read, try_except.
  step_with (f_seek_ok start data p rs r Hs).
  step_with (f_read_ok 4 data start rs r ltac:(lia)).
  assert (Hl : len (slice data start (start + 4)) = 4)
    by (rewrite len_slice by exact Hs; lia).
  rewrite Hl, Hunpack. change (4 <? 4) with false. cbv iota.
  cbn [lift]. rewrite bind_ret.
  step_with (f_read_ok L data (start + 4) (rs ++ [(start, 4)]) r ltac:(lia)).
  assert (Hc : len (slice data (start + 4) (start + 4 + L))
               = len data - (start + 4))
    by (rewrite len_slice by lia; lia).
  rewrite Hc.
  replace (len data - (start + 4) <? Z.max 0 L) with true
    by (symmetry; apply Z.ltb_lt; lia).
  rewrite bind_add_error. cbn [fh res ret].
  replace (start + 4 + (len data - (start + 4))) with (len data) by lia.
  reflexivity.
Qed.

Lemma standard_read_ok
      (start : Z) (data : bytes) (p : Z) (rs : list (Z * Z)) (r : Info.t)
      (L : Z) :
  0 <= start -> start + 4 <= len data ->
  struct_unpack_I (slice data start (start + 4)) = inr L ->
  L <= len data - (start + 4) ->
  standard_read start (mkState (mkHandle data p rs) r)
  = let raw_head := slice data start (start + 4) in
    let compressed := slice data (start + 4) (start + 4 + L) in
    (inr true,
     mkState (mkHandle data (start + 4 + L)
                       ((rs ++ [(start, 4)]) ++ [(start + 4, L)]))
             (Info.set_standard L
                (if len compressed >? 0
                 then Some (byte_val (byte_at compressed 0)) else None)
                (if len compressed >? 1 then slice_from compressed 1 else [])
                (raw_head ++ compressed) r)).
Proof.
  intros Hs Hhead Hunpack Hfull. unfold standard_read, try_except.
  pose proof (struct_unpack_I_nonneg _ _ Hunpack) as HL.
  step_with (f_seek_ok start data p rs r Hs).
  step_with (f_read_ok 4 data start rs r ltac:(lia)).
  assert (Hl : len (slice data start (start + 4)) = 4)
    by (rewrite len_slice by exact Hs; lia).
  rewrite Hl, Hunpack. change (4 <? 4) with false. cbv iota.
  cbn [lift]. rewrite bind_ret.
  step_with (f_read_ok L data (start + 4) (rs ++ [(start, 4)]) r HL).
  assert (Hc : len (slice data (start + 4) (start + 4 + L)) = L)
    by (rewrite len_slice by lia; lia).
  replace (len (slice data (start + 4) (start + 4 + L)) <? Z.max 0 L)
    with false by (symmetry; apply Z.ltb_ge; lia).
  cbv zeta. rewrite bind_update_res. cbn [fh res ret]. rewrite Hc.
  reflexivity.
Qed.

(** ** The window of the recovery scan *)

Lemma scan_window_eq
      (start : Z) (data : bytes) (p : Z) (rs : list (Z * Z)) (r : Info.t) :
  scan_window start (mkState (mkHandle data p rs) r)
  = let scan_start := Z.max start 4096 in
    let n := Z.min (len data) (scan_start + SCAN_LIMIT) - scan_start in
    if n <? -1 then
      (inl "read length must be non-negative or -1",
       mkState (mkHandle data scan_start rs) r)
    else
      (inr (scan_start, len data, read_bytes data scan_start n),
       mkState (mkHandle data (scan_start + len (read_bytes data scan_start n))
                         (rs ++ [(scan_start, n)])) r).
Proof.
  unfold scan_window. cbv zeta.
  assert (H : f_seek_end (mkState (mkHandle data p rs) r)
              = (inr tt, mkState (mkHandle data (len data) rs) r))
    by reflexivity.
  step_with H.
  assert (H' : f_tell (mkState (mkHandle data (len data) rs) r)
               = (inr (len data), mkState (mkHandle data (len data) rs) r))
    by reflexivity.
  step_with H'.
  step_with (f_seek_ok (Z.max start 4096) data (len data) rs r ltac:(lia)).
  unfold bind, f_read. cbn [fh content pos reads res].
  destruct (_ <? -1); reflexivity.
Qed.

Lemma read_bytes_window (data : bytes) (p n : Z) :
  0 <= p -> -1 <= n -> (n = -1 -> len data <= p) ->
  forall i, 0 <= i < len (read_bytes data p n) ->
            i < n /\ byte_at (read_bytes data p n) i = byte_at data (p + i).
Proof.
  intros Hp Hn Hend i Hi. destruct (Z.eq_dec n (-1)) as [->|Hne].
  - change (read_bytes data p (-1)) with (slice_from data p) in Hi.
    rewrite slice_from_beyond in Hi by (apply Hend; reflexivity).
    rewrite (@len_nil byte) in Hi. lia.
  - rewrite read_bytes_slice in * by lia. split.
    + rewrite len_slice in Hi by exact Hp. lia.
    + now apply byte_at_slice.
Qed.

(** ** What the recovery scan leaves untouched *)

Lemma keeps_refl (r : Info.t) : keeps r r.
Proof.
  repeat split. exists []. now rewrite app_nil_r.
Qed.

Lemma keeps_trans (r1 r2 r3 : Info.t) : keeps r1 r2 -> keeps r2 r3 -> keeps r1 r3.
Proof.
  intros (A1 & A2 & A3 & A4 & [e1 A5]) (B1 & B2 & B3 & B4 & [e2 B5]).
  repeat split; try congruence.
  exists (e1 ++ e2). rewrite B5, A5. now rewrite app_assoc.
Qed.

Lemma keeps_append_error (msg : string) (r : Info.t) :
  keeps r (Info.append_error msg r).
Proof. repeat split. now exists [msg]. Qed.

Lemma keeps_set_recovered (c : Z) (tail dec : bytes) (r : Info.t) :
  keeps r (Info.set_recovered c tail dec r).
Proof. repeat split. exists []. cbn. now rewrite app_nil_r. Qed.

Create HintDb keeps.
#[local] Hint Resolve keeps_refl keeps_append_error keeps_set_recovered : keeps.

Lemma try_candidate_keeps
      (gz zl : bytes -> string + bytes) (file_end c : Z) (ty : cand) (s : state) :
  keeps (res s) (finish (try_candidate gz zl file_end c ty s)).
Proof.
  destruct s as [[data p rs] r]. unfold try_candidate.
  rewrite bind_add_error. cbn [fh res].
  apply (keeps_trans _ (Info.append_error (msg_candidate c ty) r));
    [auto with keeps|].
  set (r1 := Info.append_error (msg_candidate c ty) r).
  unfold bind at 1. unfold f_seek. cbn [fh content reads res].
  destruct (c <? 0); [cbn [finish res]; auto with keeps|].
  unfold bind at 1. unfold f_read. cbn [fh content pos reads res].
  destruct (_ <? -1); [cbn [finish res]; auto with keeps|].
  unfold try_except.
  destruct ty; unfold bind;
    [destruct (gz _) | destruct (zl _)];
    cbn [lift raise ret add_error update_res finish fh res];
    eauto using keeps_trans with keeps.
Qed.

Lemma recovery_scan_keeps
      (gz zl : bytes -> string + bytes) (start : Z) (s : state) :
  keeps (res s) (finish (recovery_scan gz zl start s)).
Proof.
  destruct s as [[data p rs] r]. unfold recovery_scan.
  unfold bind at 1. rewrite scan_window_eq. cbv zeta.
  destruct (_ <? -1); [cbn [finish res]; auto with keeps|].
  destruct (find_candidate _ _) as [[c ty]|].
  - cbn [res].
    match goal with
    | |- keeps r (finish (try_candidate _ _ _ _ _ ?s')) =>
        exact (try_candidate_keeps gz zl _ c ty s')
    end.
  - cbn [finish add_error update_res res fh]. auto with keeps.
Qed.

(** ** The extraction up to the entry *)

Lemma map_err_nonneg {A} (f : A -> string + Z) (l : list A) (bs : list Z) :
  (forall a v, f a = inr v -> 0 <= v) ->
  map_err f l = inr bs -> Forall (fun v => 0 <= v) bs.
Proof.
  intros Hf. revert bs. induction l as [|a l IH]; intros bs; cbn [map_err].
  - intros [= <-]. constructor.
  - destruct (f a) as [|v] eqn:Hv; [discriminate|].
    destruct (map_err f l); [discriminate|].
    intros [= <-]. constructor; [now apply (Hf a) | now apply IH].
Qed.

Lemma decode_offsets_nonneg (header : bytes) (offsets : list Z) (i : nat) :
  decode_offsets header = inr offsets -> 0 <= nth i offsets 0.
Proof.
  intros H. unfold decode_offsets in H.
  apply map_err_nonneg in H;
    [|intros a v Hv; exact (struct_unpack_I_nonneg _ _ Hv)].
  destruct (nth_in_or_default i offsets 0) as [Hin | ->]; [|lia].
  rewrite Forall_forall in H. now apply H.
Qed.

Lemma extract_body_located
      (gz zl : bytes -> string + bytes) (data : bytes) (cx cz : Z)
      (offsets : list Z) :
  8192 <= len data ->
  decode_offsets (slice data 0 8192) = inr offsets ->
  extract_body gz zl cx cz (mkState (open_rb data) Info.init)
  = let entry := nth (Z.to_nat (chunk_index cx cz)) offsets 0 in
    let o := Z.shiftr entry 8 in
    let s1 := mkState (mkHandle data 8192 [(0, 8192)])
                      (Info.set_location o (Z.land entry 255) Info.init) in
    if o =? 0 then add_error "Chunk not present (offset 0)." s1
    else read_entry gz zl (o * 4096) s1.
Proof.
  intros Hlen Hdec. unfold extract_body.
  step_with (read_region_header_ok data Info.init offsets Hlen Hdec).
  pose proof (chunk_index_range cx cz) as Hidx.
  pose proof (decode_offsets_len _ _ Hdec) as Hl.
  rewrite list_index_ok by lia. cbn [lift]. rewrite bind_ret.
  cbv zeta. rewrite bind_update_res. cbn [fh res].
  destruct (_ =? 0); reflexivity.
Qed.

Lemma read_entry_inside
      (gz zl : bytes -> string + bytes) (start : Z) (data : bytes) (p : Z)
      (rs : list (Z * Z)) (r : Info.t) :
  start < len data ->
  read_entry gz zl start (mkState (mkHandle data p rs) r)
  = bind (standard_read start)
         (fun returned => if returned then ret tt else recovery_scan gz zl start)
         (mkState (mkHandle data (len data) rs) r).
Proof.
  intros H. unfold read_entry.
  unfold bind at 1. unfold f_seek_end. cbn [fh content reads res].
  unfold bind at 1. unfold f_tell. cbn [fh pos].
  rewrite Z.geb_leb.
  replace (len data <=? start) with false by (symmetry; apply Z.leb_gt; lia).
  rewrite bind_ret. reflexivity.
Qed.

(** * The claims *)

(** C7. The table index is periodic with period 32 in both coordinates: for
    all signed [x], [z] and all integers [k], [m],
    [chunk_index x z = chunk_index (x + 32 k) (z + 32 m)], and the index is
    [(x mod 32) + (z mod 32) * 32] for the non-negative remainder. *)
Theorem chunk_index_periodic (x z k m : Z) :
  chunk_index x z = chunk_index (x + 32 * k) (z + 32 * m) /\
  chunk_index x z = x mod 32 + (z mod 32) * 32 /\
  0 <= x mod 32 /\ 0 <= z mod 32.
Proof.
  rewrite !chunk_index_mod.
  rewrite (Z.mul_comm 32 k), (Z.mul_comm 32 m), !Z_mod_plus_full.
  pose proof (Z.mod_pos_bound x 32 ltac:(lia)).
  pose proof (Z.mod_pos_bound z 32 ltac:(lia)).
  repeat split; lia.
Qed.

(** C9. For every pair of signed coordinates, negative ones included,
    [chunk_index] lies in [0, 1023], so the lookup in the 1024-entry table
    decoded from a header does not raise. *)
Theorem chunk_index_in_table
        (cx cz : Z) (header : bytes) (offsets : list Z) :
  decode_offsets header = inr offsets ->
  0 <= chunk_index cx cz <= 1023 /\
  len offsets = 1024 /\
  list_index offsets (chunk_index cx cz)
  = inr (nth (Z.to_nat (chunk_index cx cz)) offsets 0).
Proof.
  intros Hdec. pose proof (chunk_index_range cx cz) as Hidx.
  pose proof (decode_offsets_len _ _ Hdec) as Hl.
  split; [exact Hidx|]. split; [exact Hl|]. apply list_index_ok. lia.
Qed.

Lemma chunk_index_in_table_witness :
  decode_offsets (repeat xff (Z.to_nat 8192))
  = inr (repeat 4294967295 (Z.to_nat 1024)) /\
  0 <= chunk_index (-1) (-33) <= 1023 /\
  list_index (repeat 4294967295 (Z.to_nat 1024)) (chunk_index (-1) (-33))
  = inr 4294967295.
Proof.
  assert (H : decode_offsets (repeat xff (Z.to_nat 8192))
              = inr (repeat 4294967295 (Z.to_nat 1024)))
    by (vm_compute; reflexivity).
  split; [exact H|].
  destruct (chunk_index_in_table (-1) (-33) _ _ H) as [Hr [_ Hi]].
  split; [exact Hr|]. rewrite Hi. vm_compute. reflexivity.
Defined.

(** C4. A container file of fewer than 8192 bytes: the header read fails
    with "Region header too short" after the one read of the header, and the
    call ends there: the result holds that single failure and none of the
    entry-level fields (no offset_sector, no sector_count, no length, no
    compression, no bytes), and neither does the report built from it. *)
Theorem header_truncated
        (gz zl : bytes -> string + bytes) (data : bytes) (cx cz : Z) :
  len data < 8192 ->
  fst (read_region_header (mkState (open_rb data) Info.init))
  = inl "Region header too short" /\
  extract_run gz zl (inr data) cx cz
  = (Info.mk false ["IO error opening region: Region header too short"]
             None None None None None None None,
     Some (mkHandle data (len data) [(0, 8192)])) /\
  make_diag (extract_chunk_raw_from_region gz zl (inr data) cx cz)
  = mkDiag false None None None None
           ["IO error opening region: Region header too short"].
Proof.
  intros Hlen.
  pose proof (read_region_header_short data Info.init Hlen) as Hh.
  split; [now rewrite Hh|].
  assert (Hrun : extract_run gz zl (inr data) cx cz
                 = (Info.mk false
                      ["IO error opening region: Region header too short"]
                      None None None None None None None,
                    Some (mkHandle data (len data) [(0, 8192)]))).
  { unfold extract_run, extract_body.
    rewrite (bind_inl _ _ _ _ _ Hh). reflexivity. }
  split; [exact Hrun|].
  unfold extract_chunk_raw_from_region. rewrite Hrun. reflexivity.
Qed.

Lemma header_truncated_witness :
  len [x00; x00; x02; x01] < 8192 /\
  extract_chunk_raw_from_region sample_gzip sample_zlib
    (inr [x00; x00; x02; x01]) 0 0
  = Info.mk false ["IO error opening region: Region header too short"]
            None None None None None None None.
Proof.
  assert (H : len [x00; x00; x02; x01] < 8192) by (vm_compute; reflexivity).
  split; [exact H|].
  exact (f_equal fst
           (proj1 (proj2 (header_truncated sample_gzip sample_zlib _ 0 0 H)))).
Defined.

(** C8. When the location record at the computed index is 0, the extraction
    returns found = false with diagnostics exactly
    ["Chunk not present (offset 0)."], the only read issued is the one of
    the 8192-byte header, and [main] writes no file. *)
Theorem absent_chunk
        (gz zl : bytes -> string + bytes) (nbt : bytes -> string + string)
        (a : args) (data : bytes) (cx cz : Z) (offsets : list Z) :
  8192 <= len data ->
  decode_offsets (slice data 0 8192) = inr offsets ->
  nth (Z.to_nat (chunk_index cx cz)) offsets 0 = 0 ->
  extract_run gz zl (inr data) cx cz
  = (Info.mk false ["Chunk not present (offset 0)."] (Some 0) (Some 0)
             None None None None None,
     Some (mkHandle data 8192 [(0, 8192)])) /\
  main gz zl nbt a (inr data) cx cz = [].
Proof.
  intros Hlen Hdec Hzero.
  assert (Hrun : extract_run gz zl (inr data) cx cz
                 = (Info.mk false ["Chunk not present (offset 0)."] (Some 0)
                            (Some 0) None None None None None,
                    Some (mkHandle data 8192 [(0, 8192)]))).
  { unfold extract_run.
    rewrite (extract_body_located gz zl data cx cz offsets Hlen Hdec).
    rewrite Hzero. reflexivity. }
  split; [exact Hrun|].
  unfold main, extract_chunk_raw_from_region. rewrite Hrun. reflexivity.
Qed.

Lemma absent_chunk_witness :
  8192 <= len (region_file [x00; x00; x00; x00] [x1f; x8b; x78; x9c]) /\
  main sample_gzip sample_zlib sample_json sample_args
       (inr (region_file [x00; x00; x00; x00] [x1f; x8b; x78; x9c])) 0 0 = [].
Proof.
  assert (H : 8192 <= len (region_file [x00; x00; x00; x00]
                                       [x1f; x8b; x78; x9c]))
    by (vm_compute; discriminate).
  split; [exact H|].
  apply (absent_chunk sample_gzip sample_zlib sample_json sample_args _ 0 0
                      (repeat 0 (Z.to_nat 1024)) H);
    vm_compute; reflexivity.
Defined.

(** C10. When the 4-byte length header is read in full and declares length
    0, the extraction succeeds: found = true, length 0, compression tag
    None, empty compressed bytes, raw_sector_data equal to the 4 header
    bytes, and no diagnostic. *)
Theorem zero_length_payload
        (gz zl : bytes -> string + bytes) (data : bytes) (cx cz : Z)
        (offsets : list Z) :
  let entry := nth (Z.to_nat (chunk_index cx cz)) offsets 0 in
  let start := Z.shiftr entry 8 * 4096 in
  8192 <= len data ->
  decode_offsets (slice data 0 8192) = inr offsets ->
  Z.shiftr entry 8 <> 0 ->
  start + 4 <= len data ->
  slice data start (start + 4) = [x00; x00; x00; x00] ->
  extract_chunk_raw_from_region gz zl (inr data) cx cz
  = Info.mk true [] (Some (Z.shiftr entry 8)) (Some (Z.land entry 255))
            (Some 0) (Some None) (Some []) (Some [x00; x00; x00; x00]) None.
Proof.
  intros entry start Hlen Hdec Hpresent Hhead Hzero.
  pose proof (decode_offsets_nonneg _ _ (Z.to_nat (chunk_index cx cz)) Hdec)
    as Hentry.
  fold entry in Hentry.
  assert (Ho : 0 <= Z.shiftr entry 8) by (apply Z.shiftr_nonneg; exact Hentry).
  assert (Hstart : 0 <= start) by (unfold start; lia).
  unfold extract_chunk_raw_from_region, extract_run.
  rewrite (extract_body_located gz zl data cx cz offsets Hlen Hdec).
  cbv zeta. fold entry. apply Z.eqb_neq in Hpresent. rewrite Hpresent.
  fold start. rewrite read_entry_inside by lia.
  assert (Hun : struct_unpack_I (slice data start (start + 4)) = inr 0)
    by (rewrite Hzero; reflexivity).
  pose proof (len_nonneg data).
  rewrite (bind_inr _ _ _ _ _
             (standard_read_ok start data _ _ _ 0 Hstart Hhead Hun
                               ltac:(lia))).
  cbv zeta. rewrite Hzero.
  assert (Hc : slice data (start + 4) (start + 4 + 0) = []).
  { unfold slice. replace (Z.to_nat (start + 4 + 0 - (start + 4))) with 0%nat
      by lia. reflexivity. }
  rewrite Hc. reflexivity.
Qed.

Lemma zero_length_payload_witness :
  8192 <= len (region_file [x00; x00; x02; x01] [x00; x00; x00; x00]) /\
  extract_chunk_raw_from_region sample_gzip sample_zlib
    (inr (region_file [x00; x00; x02; x01] [x00; x00; x00; x00])) 0 0
  = Info.mk true [] (Some 2) (Some 1) (Some 0) (Some None) (Some [])
            (Some [x00; x00; x00; x00]) None.
Proof.
  assert (H : 8192 <= len (region_file [x00; x00; x02; x01]
                                       [x00; x00; x00; x00]))
    by (vm_compute; discriminate).
  split; [exact H|].
  apply (zero_length_payload sample_gzip sample_zlib _ 0 0
           (513 :: repeat 0 (Z.to_nat 1023)) H);
    vm_compute; (reflexivity || discriminate).
Defined.

(** C6. In a scan window that holds the gzip magic [1f 8b] somewhere and a
    valid zlib pair somewhere, the scanner selects the gzip candidate, at the
    first occurrence of the magic, wherever the zlib pair is (also when the
    pair comes first). *)
Theorem gzip_magic_takes_priority (block : bytes) (scan_start p q : Z) :
  0 <= p -> p + 1 < len block ->
  byte_at block p = x1f -> byte_at block (p + 1) = x8b ->
  0 <= q -> zlib_pair_at block q = true ->
  find_candidate block scan_start
  = Some (scan_start + bytes_find block [x1f; x8b], gzip) /\
  0 <= bytes_find block [x1f; x8b] <= p /\
  occurs_at [x1f; x8b] block (bytes_find block [x1f; x8b]).
Proof.
  intros Hp Hp1 Hb1 Hb2 _ _.
  assert (Hocc : occurs_at [x1f; x8b] block p)
    by (apply occurs_at_pair; auto).
  destruct (bytes_find_le block [x1f; x8b] p (cons_not_nil _ _) Hp Hocc)
    as [Hr _].
  split; [apply find_candidate_gzip; lia|]. split; [exact Hr|].
  destruct (bytes_find_cases block [x1f; x8b] (cons_not_nil _ _))
    as [[Hm _] | [_ [Ho _]]]; [lia | exact Ho].
Qed.

Lemma gzip_magic_takes_priority_witness :
  let block := repeat x00 10 ++ [x78; x9c] ++ repeat x00 38 ++ [x1f; x8b] in
  zlib_pair_at block 10 = true /\
  byte_at block 50 = x1f /\
  find_candidate block 8192 = Some (8192 + 50, gzip).
Proof.
  intros block.
  assert (Hz : zlib_pair_at block 10 = true) by (vm_compute; reflexivity).
  assert (H1 : byte_at block 50 = x1f) by (vm_compute; reflexivity).
  assert (H2 : byte_at block (50 + 1) = x8b) by (vm_compute; reflexivity).
  assert (Hl : 50 + 1 < len block) by (vm_compute; reflexivity).
  split; [exact Hz|]. split; [exact H1|].
  destruct (gzip_magic_takes_priority block 8192 50 10
              ltac:(lia) Hl H1 H2 ltac:(lia) Hz) as [Hc _].
  rewrite Hc. vm_compute. reflexivity.
Defined.

(** C2, as the code has it.  In a scan window without gzip magic, let [p] be
    the first position holding [78] followed by one of [9c], [01], [da].
    The scanner returns the zlib candidate at [p] when [p] is within 32
    bytes of the first [78] of the window (below its position plus 32);
    otherwise it returns no candidate: once the first [78] is found, only
    the 32 offsets from it are examined. *)
Theorem zlib_candidate_near_first_78 (block : bytes) (scan_start p : Z) :
  bytes_find block [x1f; x8b] = -1 ->
  0 <= p ->
  zlib_pair_at block p = true ->
  (forall q, 0 <= q < p -> zlib_pair_at block q = false) ->
  0 <= bytes_find block [x78] <= p /\
  find_candidate block scan_start
  = if p <? bytes_find block [x78] + 32 then Some (scan_start + p, zlib)
    else None.
Proof.
  intros Hg Hp Hpair Hfirst.
  pose proof (zlib_pair_at_78 block p Hp Hpair) as Hocc.
  destruct (bytes_find_le block [x78] p (cons_not_nil _ _) Hp Hocc)
    as [Hz _].
  split; [exact Hz|].
  assert (Hz' : bytes_find block [x78] <> -1) by lia.
  rewrite (find_candidate_no_gzip block scan_start Hg Hz'). cbv zeta.
  set (z_pos := bytes_find block [x78]) in *.
  assert (Hlen : p + 1 < len block).
  { unfold zlib_pair_at in Hpair. apply andb_true_iff in Hpair as [Hpair _].
    apply andb_true_iff in Hpair as [_ Hpair]. now apply Z.ltb_lt in Hpair. }
  destruct (p <? z_pos + 32) eqn:Hnear.
  - apply Z.ltb_lt in Hnear.
    rewrite (zlib_probe_range_hit block (Z.min (z_pos + 32) (len block)) p
               (Z.to_nat (p - z_pos)) z_pos eq_refl ltac:(lia) Hpair)
      by (intros q Hq; apply Hfirst; lia).
    replace (p =? -1) with false by (symmetry; apply Z.eqb_neq; lia).
    reflexivity.
  - apply Z.ltb_ge in Hnear.
    rewrite zlib_probe_range_miss; [reflexivity|].
    intros q Hq. apply Hfirst. lia.
Qed.

Lemma zlib_candidate_near_first_78_witness :
  let block := [x78; x00; x00; x78; xda; x01] in
  bytes_find block [x1f; x8b] = -1 /\
  zlib_pair_at block 3 = true /\
  find_candidate block 8192 = Some (8192 + 3, zlib).
Proof.
  intros block.
  assert (Hg : bytes_find block [x1f; x8b] = -1) by (vm_compute; reflexivity).
  assert (Hp : zlib_pair_at block 3 = true) by (vm_compute; reflexivity).
  split; [exact Hg|]. split; [exact Hp|].
  destruct (zlib_candidate_near_first_78 block 8192 3 Hg ltac:(lia) Hp)
    as [_ Hc].
  - intros q Hq.
    assert (Hcases : q = 0 \/ q = 1 \/ q = 2) by lia.
    destruct Hcases as [-> | [-> | ->]]; vm_compute; reflexivity.
  - rewrite Hc. vm_compute. reflexivity.
Defined.

(** C2 as stated fails: a window without gzip magic whose first [78] is not
    followed by a flag byte, and whose valid pair [78 9c] lies 40 bytes
    later, yields no candidate. *)
Lemma zlib_pair_beyond_32_is_missed :
  let block := x78 :: repeat x00 39 ++ [x78; x9c] in
  bytes_find block [x1f; x8b] = -1 /\
  byte_at block 40 = x78 /\ byte_at block 41 = x9c /\
  zlib_pair_at block 40 = true /\
  find_candidate block 8192 = None.
Proof. vm_compute. repeat split; reflexivity. Qed.

(** C5. The window read of the recovery scan starts at
    [max(start, 4096)], every byte it returns lies below
    [min(file_size, scan_start + 4 MiB)], and a candidate position found in
    the window is never below [max(start, 4096)] (nor at or past the end
    of the window).  When the read is refused (an [inl] outcome) nothing is
    read at all. *)
Theorem recovery_scan_bounds (start : Z) (s : state) :
  match scan_window start s with
  | (inr (scan_start, file_end, block), s') =>
      scan_start = Z.max start 4096 /\
      file_end = len (content (fh s)) /\
      reads (fh s')
      = reads (fh s)
        ++ [(scan_start,
             Z.min file_end (scan_start + 4 * 1024 * 1024) - scan_start)] /\
      (forall i, 0 <= i < len block ->
         scan_start + i < Z.min file_end (scan_start + 4 * 1024 * 1024) /\
         byte_at block i = byte_at (content (fh s)) (scan_start + i)) /\
      (forall c ty, find_candidate block scan_start = Some (c, ty) ->
         Z.max start 4096 <= c
         /\ c < Z.min file_end (scan_start + 4 * 1024 * 1024))
  | (inl _, s') => reads (fh s') = reads (fh s)
  end.
Proof.
  destruct s as [[data p rs] r]. rewrite scan_window_eq. cbv zeta.
  change SCAN_LIMIT with (4 * 1024 * 1024).
  set (ss := Z.max start 4096).
  set (n := Z.min (len data) (ss + 4 * 1024 * 1024) - ss).
  destruct (n <? -1) eqn:Hn; [reflexivity|].
  apply Z.ltb_ge in Hn. cbn [fh content reads].
  assert (Hwin : forall i, 0 <= i < len (read_bytes data ss n) ->
            i < n /\ byte_at (read_bytes data ss n) i = byte_at data (ss + i)).
  { apply read_bytes_window; unfold n, ss in *; lia. }
  assert (Hdef : n = Z.min (len data) (ss + 4 * 1024 * 1024) - ss)
    by reflexivity.
  repeat split; try reflexivity.
  - destruct (Hwin i H) as [Hi _]. lia.
  - now apply Hwin.
  - apply find_candidate_bounds in H. lia.
  - apply find_candidate_bounds in H.
    destruct (Hwin (len (read_bytes data ss n) - 1) ltac:(lia)) as [Hi _].
    lia.
Qed.

(** C3, as the code has it.  When the length header is read in full and the
    payload read returns fewer than the declared [L] bytes, the diagnostic
    "Chunk length L but only read n bytes." (both counts) is recorded first;
    the bytes that were read are not stored: the result has no raw block and
    no length, and it is exactly what the recovery scan produces from the
    dictionary holding the location and that diagnostic, reading the file
    again from the declared offset. *)
Theorem short_payload_goes_to_scan
        (gz zl : bytes -> string + bytes) (data : bytes) (cx cz : Z)
        (offsets : list Z) (L : Z) :
  let entry := nth (Z.to_nat (chunk_index cx cz)) offsets 0 in
  let start := Z.shiftr entry 8 * 4096 in
  let n := len data - (start + 4) in
  let r1 := Info.append_error (msg_length_mismatch L n)
              (Info.set_location (Z.shiftr entry 8) (Z.land entry 255)
                                 Info.init) in
  let r := extract_chunk_raw_from_region gz zl (inr data) cx cz in
  8192 <= len data ->
  decode_offsets (slice data 0 8192) = inr offsets ->
  Z.shiftr entry 8 <> 0 ->
  start + 4 <= len data ->
  struct_unpack_I (slice data start (start + 4)) = inr L ->
  n < L ->
  r = finish (recovery_scan gz zl start
                (mkState (mkHandle data (len data)
                                   [(0, 8192); (start, 4); (start + 4, L)])
                         r1)) /\
  (exists rest, Info.errors r = msg_length_mismatch L n :: rest) /\
  Info.raw_sector_data r = None /\
  Info.length r = None.
Proof.
  intros entry start n r1 r Hlen Hdec Hpresent Hhead Hun Hshort.
  pose proof (decode_offsets_nonneg _ _ (Z.to_nat (chunk_index cx cz)) Hdec)
    as Hentry.
  fold entry in Hentry.
  assert (Ho : 0 <= Z.shiftr entry 8) by (apply Z.shiftr_nonneg; exact Hentry).
  assert (Hstart : 0 <= start) by (unfold start; lia).
  assert (Hr : r = finish (recovery_scan gz zl start
                (mkState (mkHandle data (len data)
                                   [(0, 8192); (start, 4); (start + 4, L)])
                         r1))).
  { unfold r, extract_chunk_raw_from_region, extract_run.
    rewrite (extract_body_located gz zl data cx cz offsets Hlen Hdec).
    cbv zeta. fold entry. apply Z.eqb_neq in Hpresent. rewrite Hpresent.
    fold start. rewrite read_entry_inside by lia.
    rewrite (bind_inr _ _ _ _ _
               (standard_read_mismatch start data _ _ _ L Hstart Hhead Hun
                                       Hshort)).
    cbn [app]. fold n. fold r1. unfold finish.
    destruct (recovery_scan gz zl start _) as [[e|u] s']; reflexivity. }
  split; [exact Hr|].
  pose proof (recovery_scan_keeps gz zl start
                (mkState (mkHandle data (len data)
                                   [(0, 8192); (start, 4); (start + 4, L)])
                         r1)) as Hk.
  rewrite <- Hr in Hk. destruct Hk as (_ & _ & Hl & Hraw & [rest Herr]).
  cbn in Hl, Hraw, Herr. split; [now exists rest|]. split; assumption.
Qed.

Lemma short_payload_goes_to_scan_witness :
  let data := region_file [x00; x00; x02; x01]
                [x00; x00; x00; x0a; x02; x00; x1f; x8b] in
  let r := extract_chunk_raw_from_region sample_gzip sample_zlib (inr data) 0 0 in
  len data - (8192 + 4) < 10 /\
  (exists rest,
     Info.errors r = "Chunk length 10 but only read 4 bytes." :: rest) /\
  Info.raw_sector_data r = None /\
  Info.length r = None.
Proof.
  intros data r.
  set (offsets := 513 :: repeat 0 (Z.to_nat 1023)).
  assert (Hs : len data - (8192 + 4) < 10) by (vm_compute; reflexivity).
  assert (Hlen : 8192 <= len data) by (vm_compute; discriminate).
  assert (Hdec : decode_offsets (slice data 0 8192) = inr offsets)
    by (vm_compute; reflexivity).
  assert (Hpres : Z.shiftr (nth (Z.to_nat (chunk_index 0 0)) offsets 0) 8 <> 0)
    by (vm_compute; discriminate).
  assert (Hhead : 8192 + 4 <= len data) by (vm_compute; discriminate).
  assert (Hun : struct_unpack_I (slice data 8192 (8192 + 4)) = inr 10)
    by (vm_compute; reflexivity).
  split; [exact Hs|].
  exact (proj2 (short_payload_goes_to_scan sample_gzip sample_zlib data 0 0
                  offsets 10 Hlen Hdec Hpres Hhead Hun Hs)).
Defined.

(** C3 as stated fails: on a short payload without any compression
    signature the result holds the two diagnostics and no bytes at all
    (nothing retained), and [main] makes no decode attempt and writes
    nothing. *)
Lemma short_payload_bytes_not_retained :
  let data := region_file [x00; x00; x02; x01]
                [x00; x00; x00; x0a; x02; x00; x00] in
  let r := extract_chunk_raw_from_region sample_gzip sample_zlib (inr data) 0 0 in
  r = Info.mk false
        ["Chunk length 10 but only read 3 bytes.";
         "No gzip/zlib header found during scan."]
        (Some 2) (Some 1) None None None None None /\
  main sample_gzip sample_zlib sample_json sample_args (inr data) 0 0 = [].
Proof. vm_compute. split; reflexivity. Qed.

(** ** The decompression of [main] *)

(** C1 as stated fails: a chunk tagged 2 (zlib) with an empty payload.  The
    hinted method fails on it, the other method would succeed, and the only
    attempt made is the hinted one: the chunk is given up and its compressed
    bytes are written to the side file. *)
Lemma known_hint_no_alternate_attempt :
  let data := region_file [x00; x00; x02; x01] [x00; x00; x00; x01; x02] in
  let info := extract_chunk_raw_from_region sample_gzip sample_zlib (inr data) 0 0 in
  get_compression info = Some 2 /\
  Info.compressed_bytes info = Some [] /\
  sample_zlib []
  = inl "Error -5 while decompressing data: incomplete or truncated stream" /\
  sample_gzip [] = inr [] /\
  decompress_chunk sample_gzip sample_zlib info = ([(zlib, [])], None) /\
  main sample_gzip sample_zlib sample_json sample_args (inr data) 0 0
  = [WriteBytes "chunk_out.json.chunk_compressed.bin" []].
Proof. vm_compute. repeat split; reflexivity. Qed.

(** * Further properties of the extraction *)

(** ** The outcomes of each stage *)

Lemma with_errors_snoc (es : list string) (msg : string) (r : Info.t) :
  with_errors (es ++ [msg]) r = Info.append_error msg (with_errors es r).
Proof. unfold with_errors. now rewrite fold_left_app. Qed.

Lemma with_errors_fields (es : list string) (r : Info.t) :
  with_errors es r
  = Info.mk (Info.found r) (Info.errors r ++ es) (Info.offset_sector r)
            (Info.sector_count r) (Info.length r) (Info.compression r)
            (Info.compressed_bytes r) (Info.raw_sector_data r)
            (Info.decompressed_bytes r).
Proof.
  revert r. induction es as [|m es IH]; intros r.
  - cbn. rewrite app_nil_r. now destruct r.
  - change (with_errors (m :: es) r)
      with (with_errors es (Info.append_error m r)).
    rewrite IH. cbn. now rewrite <- app_assoc.
Qed.

Lemma standard_read_outcome (start : Z) (s : state) :
  exists b s',
    standard_read start s = (inr b, s') /\
    content (fh s') = content (fh s) /\
    ((b = false /\ exists msg, res s' = Info.append_error msg (res s)) \/
     (b = true /\ start < len (content (fh s)) /\
      exists L c payload raw,
        res s' = Info.set_standard L c payload raw (res s))).
Proof.
  destruct s as [[data p rs] r].
  unfold standard_read, try_except, bind, f_seek.
  cbn [fh content pos reads res].
  destruct (start <? 0) eqn:Hneg.
  { do 2 eexists. split; [reflexivity|]. split; [reflexivity|].
    left. split; [reflexivity|]. now eexists. }
  apply Z.ltb_ge in Hneg.
  unfold f_read. change (4 <? -1) with false. cbn [fh content pos reads res].
  destruct (len (read_bytes data start 4) <? 4) eqn:Hhead.
  { do 2 eexists. split; [reflexivity|]. split; [reflexivity|].
    left. split; [reflexivity|]. now eexists. }
  apply Z.ltb_ge in Hhead.
  assert (Hin : start < len data).
  { rewrite len_read_bytes in Hhead by lia. lia. }
  destruct (struct_unpack_I (read_bytes data start 4)) as [e|L];
    cbn [lift raise ret].
  { do 2 eexists. split; [reflexivity|]. split; [reflexivity|].
    left. split; [reflexivity|]. now eexists. }
  cbn [fh content pos reads res].
  destruct (L <? -1).
  { do 2 eexists. split; [reflexivity|]. split; [reflexivity|].
    left. split; [reflexivity|]. now eexists. }
  cbn [fh content pos reads res].
  destruct (len _ <? Z.max 0 L).
  { do 2 eexists. split; [reflexivity|]. split; [reflexivity|].
    left. split; [reflexivity|]. now eexists. }
  do 2 eexists. split; [reflexivity|]. split; [reflexivity|].
  right. split; [reflexivity|]. split; [exact Hin|]. now do 4 eexists.
Qed.

Lemma try_candidate_outcome
      (gz zl : bytes -> string + bytes) (file_end c : Z) (ty : cand) (s : state) :
  (exists m1 m2,
     finish (try_candidate gz zl file_end c ty s)
     = Info.append_error m2 (Info.append_error m1 (res s))) \/
  (exists m1 tail dec,
     finish (try_candidate gz zl file_end c ty s)
     = Info.set_recovered (cand_tag ty) tail dec (Info.append_error m1 (res s))).
Proof.
  destruct s as [[data p rs] r]. unfold try_candidate.
  rewrite bind_add_error. cbn [fh res].
  unfold bind at 1. unfold f_seek. cbn [fh content reads res].
  destruct (c <? 0); [left; now do 2 eexists|].
  unfold bind at 1. unfold f_read. cbn [fh content pos reads res].
  destruct (_ <? -1); [left; now do 2 eexists|].
  unfold try_except.
  destruct ty; unfold bind;
    [destruct (gz _) | destruct (zl _)];
    cbn [lift raise ret add_error update_res finish fh res cand_tag];
    solve [left; now do 2 eexists | right; now do 3 eexists].
Qed.

Lemma recovery_scan_eq
      (gz zl : bytes -> string + bytes) (start : Z) (data : bytes) (p : Z)
      (rs : list (Z * Z)) (r : Info.t) :
  recovery_scan gz zl start (mkState (mkHandle data p rs) r)
  = let scan_start := Z.max start 4096 in
    let n := Z.min (len data) (scan_start + SCAN_LIMIT) - scan_start in
    let block := read_bytes data scan_start n in
    if n <? -1 then
      (inl "read length must be non-negative or -1",
       mkState (mkHandle data scan_start rs) r)
    else
      let s' := mkState (mkHandle data (scan_start + len block)
                                  (rs ++ [(scan_start, n)])) r in
      match find_candidate block scan_start with
      | Some (c, ty) => try_candidate gz zl (len data) c ty s'
      | None => add_error "No gzip/zlib header found during scan." s'
      end.
Proof.
  unfold recovery_scan. unfold bind at 1. rewrite scan_window_eq. cbv zeta.
  destruct (_ <? -1); [reflexivity|].
  destruct (find_candidate _ _) as [[c ty]|]; reflexivity.
Qed.

Lemma recovery_scan_outcome
      (gz zl : bytes -> string + bytes) (start : Z) (s : state) :
  (exists m1, finish (recovery_scan gz zl start s)
              = Info.append_error m1 (res s)) \/
  (exists m1 m2,
     finish (recovery_scan gz zl start s)
     = Info.append_error m2 (Info.append_error m1 (res s))) \/
  (exists m1 ty tail dec,
     finish (recovery_scan gz zl start s)
     = Info.set_recovered (cand_tag ty) tail dec (Info.append_error m1 (res s))).
Proof.
  destruct s as [[data p rs] r]. rewrite recovery_scan_eq. cbv zeta.
  destruct (_ <? -1); [left; now eexists|].
  destruct (find_candidate _ _) as [[c ty]|]; [|left; now eexists].
  right.
  match goal with
  | |- context [try_candidate gz zl ?fe c ty ?s'] =>
      destruct (try_candidate_outcome gz zl fe c ty s')
        as [(m1 & m2 & H) | (m1 & tail & dec & H)]
  end.
  - left. exists m1, m2. exact H.
  - right. exists m1, ty, tail, dec. exact H.
Qed.

Lemma recovery_scan_beyond
      (gz zl : bytes -> string + bytes) (start : Z) (data : bytes) (p : Z)
      (rs : list (Z * Z)) (r : Info.t) :
  len data <= start -> 4096 <= start ->
  finish (recovery_scan gz zl start (mkState (mkHandle data p rs) r))
  = Info.append_error
      (if len data - start <? -1
       then "IO error opening region: read length must be non-negative or -1"
       else "No gzip/zlib header found during scan.") r.
Proof.
  intros Hbeyond Hstart. rewrite recovery_scan_eq. cbv zeta.
  replace (Z.max start 4096) with start by lia.
  replace (Z.min (len data) (start + SCAN_LIMIT) - start)
    with (len data - start) by (unfold SCAN_LIMIT; lia).
  destruct (len data - start <? -1) eqn:Hn; [reflexivity|].
  apply Z.ltb_ge in Hn.
  assert (Hblock : read_bytes data start (len data - start) = []).
  { unfold read_bytes. destruct (len data - start =? -1).
    - apply slice_from_beyond. lia.
    - unfold slice.
      replace (Z.to_nat (start + (len data - start) - start)) with 0%nat by lia.
      reflexivity. }
  rewrite Hblock. reflexivity.
Qed.

Lemma read_entry_outcome
      (gz zl : bytes -> string + bytes) (start : Z) (s : state) :
  4096 <= start ->
  outcome (res s) (finish (read_entry gz zl start s)).
Proof.
  intros Hstart.
  destruct s as [[data p rs] r]. unfold read_entry.
  unfold bind at 1. unfold f_seek_end. cbn [fh content reads res].
  unfold bind at 1. unfold f_tell. cbn [fh pos].
  destruct (start >=? len data) eqn:Hbeyond.
  - rewrite Z.geb_leb in Hbeyond. apply Z.leb_le in Hbeyond.
    rewrite bind_add_error. cbn [fh res].
    set (r1 := Info.append_error (msg_beyond start (len data)) r).
    destruct (standard_read_outcome start
                (mkState (mkHandle data (len data) rs) r1))
      as (b & s' & Hrun & Hcont & [[-> [m Hres]] | [_ [Hin _]]]).
    + rewrite (bind_inr _ _ _ _ _ Hrun).
      destruct s' as [[data' p' rs'] r']. cbn [fh content res] in Hcont, Hres.
      subst data' r'.
      rewrite (recovery_scan_beyond gz zl start data p' rs' _ Hbeyond Hstart).
      exact (out_failed r [_; m; _] ltac:(cbn; lia)).
    + cbn [fh content] in Hin. lia.
  - rewrite bind_ret.
    destruct (standard_read_outcome start
                (mkState (mkHandle data (len data) rs) r))
      as (b & s' & Hrun & _ &
          [[-> [m Hres]] | [-> [_ (L & c & payload & raw & Hres)]]]).
    + rewrite (bind_inr _ _ _ _ _ Hrun).
      destruct (recovery_scan_outcome gz zl start s')
        as [[m1 H] | [(m1 & m2 & H) | (m1 & ty & tail & dec & H)]];
        rewrite H, Hres; cbn [res].
      * exact (out_failed r [m; m1] ltac:(cbn; lia)).
      * exact (out_failed r [m; m1; m2] ltac:(cbn; lia)).
      * exact (out_recovered r [m; m1] ty tail dec ltac:(cbn; lia)).
    + rewrite (bind_inr _ _ _ _ _ Hrun). cbn [finish ret].
      rewrite Hres. cbn [res]. apply out_standard.
Qed.

Lemma read_region_header_res (data : bytes) (r : Info.t) :
  res (snd (read_region_header (mkState (open_rb data) r))) = r.
Proof.
  unfold read_region_header, bind, f_seek, f_read, open_rb.
  cbn [fh content pos reads res]. change (0 <? 0) with false.
  change (8192 <? -1) with false. cbv iota.
  destruct (_ <? 8192); [reflexivity|].
  cbn [fh content pos reads res].
  destruct (decode_offsets _); reflexivity.
Qed.

Lemma read_region_header_decoded (data : bytes) (r : Info.t) :
  forall offsets,
    fst (read_region_header (mkState (open_rb data) r)) = inr offsets ->
    decode_offsets (slice data 0 8192) = inr offsets.
Proof.
  intros offsets.
  unfold read_region_header, bind, f_seek, f_read, open_rb.
  cbn [fh content pos reads res]. change (0 <? 0) with false.
  change (8192 <? -1) with false. cbv iota.
  rewrite read_bytes_slice by lia. change (0 + 8192) with 8192.
  destruct (_ <? 8192); [discriminate|].
  cbn [fh content pos reads res].
  destruct (decode_offsets _); cbn [lift raise ret fst]; congruence.
Qed.

Lemma extract_body_outcome
      (gz zl : bytes -> string + bytes) (data : bytes) (cx cz : Z) :
  exists r0,
    (r0 = Info.init \/ exists o c, r0 = Info.set_location o c Info.init) /\
    outcome r0 (finish (extract_body gz zl cx cz
                                     (mkState (open_rb data) Info.init))).
Proof.
  unfold extract_body. unfold bind at 1.
  pose proof (read_region_header_res data Info.init) as Hres.
  pose proof (read_region_header_decoded data Info.init) as Hdec.
  destruct (read_region_header _) as [[e|offsets] [h r]].
  { cbn [snd res] in Hres. subst r. exists Info.init. split; [now left|].
    exact (out_failed Info.init [_] ltac:(cbn; lia)). }
  cbn [snd res] in Hres. subst r. cbn [fst] in Hdec.
  specialize (Hdec offsets eq_refl).
  unfold bind at 1.
  destruct (list_index offsets (chunk_index cx cz)) as [e|entry] eqn:Hidx';
    cbn [lift raise ret].
  { exists Info.init. split; [now left|].
    exact (out_failed Info.init [_] ltac:(cbn; lia)). }
  rewrite bind_update_res. cbn [fh res].
  exists (Info.set_location (Z.shiftr entry 8) (Z.land entry 255) Info.init).
  split; [right; now do 2 eexists|].
  destruct (Z.shiftr entry 8 =? 0) eqn:Hzero.
  - exact (out_failed _ [_] ltac:(cbn; lia)).
  - apply Z.eqb_neq in Hzero.
    assert (Hentry : 0 <= entry).
    { pose proof (chunk_index_range cx cz) as Hidx.
      pose proof (decode_offsets_len _ _ Hdec) as Hl.
      rewrite list_index_ok in Hidx' by lia. injection Hidx' as <-.
      exact (decode_offsets_nonneg _ _ _ Hdec). }
    assert (Ho : 0 <= Z.shiftr entry 8) by (apply Z.shiftr_nonneg; exact Hentry).
    match goal with
    | |- outcome ?r0 (finish (read_entry gz zl ?st ?s')) =>
        exact (read_entry_outcome gz zl st s' ltac:(lia))
    end.
Qed.

(** The dictionary returned by the extraction is [Info.init], or
    [Info.init] with a location, followed by one of the three outcomes. *)
Lemma extract_outcome
      (gz zl : bytes -> string + bytes) (file : string + bytes) (cx cz : Z) :
  exists r0,
    (r0 = Info.init \/ exists o c, r0 = Info.set_location o c Info.init) /\
    outcome r0 (extract_chunk_raw_from_region gz zl file cx cz).
Proof.
  destruct file as [e|data].
  { exists Info.init. split; [now left|].
    exact (out_failed Info.init [_] ltac:(cbn; lia)). }
  destruct (extract_body_outcome gz zl data cx cz) as (r0 & Hr0 & Hout).
  exists r0. split; [exact Hr0|].
  unfold extract_chunk_raw_from_region, extract_run.
  destruct (extract_body gz zl cx cz _) as [[e|u] s]; exact Hout.
Qed.

Lemma outcome_errors (r0 r : Info.t) :
  outcome r0 r ->
  Info.offset_sector r = Info.offset_sector r0 /\
  Info.sector_count r = Info.sector_count r0 /\
  exists es, Info.errors r = Info.errors r0 ++ es /\ (List.length es <= 3)%nat.
Proof.
  intros [es Hes | L c payload raw | es ty tail dec Hes];
    rewrite ?with_errors_fields; cbn.
  - repeat split. now exists es.
  - repeat split. exists []. rewrite app_nil_r. split; [reflexivity | cbn; lia].
  - repeat split. exists es. split; [reflexivity | lia].
Qed.

(** X1. Whatever the file and the coordinates, the returned dictionary has
    one of three shapes.  With found = false it holds no bytes at all (no
    length, compression, compressed_bytes, raw_sector_data or
    decompressed_bytes).  With found = true it holds compressed_bytes and a
    compression entry, and either the raw block and the declared length
    without decompressed bytes (standard path), or decompressed bytes and
    tag 1 or 2 without raw block and length (scan path). *)
Theorem extraction_result_shape
        (gz zl : bytes -> string + bytes) (file : string + bytes) (cx cz : Z) :
  let r := extract_chunk_raw_from_region gz zl file cx cz in
  (Info.found r = false ->
   Info.length r = None /\ Info.compression r = None /\
   Info.compressed_bytes r = None /\ Info.raw_sector_data r = None /\
   Info.decompressed_bytes r = None) /\
  (Info.found r = true ->
   Info.compressed_bytes r <> None /\ Info.compression r <> None /\
   ((Info.raw_sector_data r <> None /\ Info.length r <> None /\
     Info.decompressed_bytes r = None) \/
    (Info.raw_sector_data r = None /\ Info.length r = None /\
     Info.decompressed_bytes r <> None /\
     (get_compression r = Some 1 \/ get_compression r = Some 2)))).
Proof.
  intros r. unfold r.
  destruct (extract_outcome gz zl file cx cz) as (r0 & Hr0 & Hout).
  assert (Hbase : Info.found r0 = false /\ Info.length r0 = None /\
                  Info.compression r0 = None /\
                  Info.compressed_bytes r0 = None /\
                  Info.raw_sector_data r0 = None /\
                  Info.decompressed_bytes r0 = None).
  { destruct Hr0 as [-> | (o & c & ->)]; repeat split. }
  destruct Hbase as (B1 & B2 & B3 & B4 & B5 & B6).
  destruct Hout as [es Hes | L c payload raw | es ty tail dec Hes];
    rewrite ?with_errors_fields; cbn.
  - split; [intros _; repeat split; assumption | congruence].
  - split; [discriminate|]. intros _.
    split; [discriminate|]. split; [discriminate|].
    left. split; [discriminate|]. split; [discriminate | exact B6].
  - split; [discriminate|]. intros _.
    split; [discriminate|]. split; [discriminate|].
    right. split; [exact B5|]. split; [exact B2|]. split; [discriminate|].
    unfold get_compression. cbn. destruct ty; [now left | now right].
Qed.

(** X2. When the extraction reports found = false, [main] writes no file:
    the branch that parses decompressed bytes of a chunk that was not found
    is never taken. *)
Theorem not_found_writes_nothing
        (gz zl : bytes -> string + bytes) (nbt : bytes -> string + string)
        (a : args) (file : string + bytes) (cx cz : Z) :
  Info.found (extract_chunk_raw_from_region gz zl file cx cz) = false ->
  main gz zl nbt a file cx cz = [].
Proof.
  intros Hnf. unfold main, main_writes. rewrite Hnf. cbn [negb].
  destruct (extract_outcome gz zl file cx cz) as (r0 & Hr0 & Hout).
  assert (Hbase : Info.decompressed_bytes r0 = None)
    by (destruct Hr0 as [-> | (o & c & ->)]; reflexivity).
  revert Hnf.
  destruct Hout as [es Hes | L c payload raw | es ty tail dec Hes];
    rewrite ?with_errors_fields; cbn; try discriminate.
  intros _. now rewrite Hbase.
Qed.

Lemma not_found_writes_nothing_witness :
  Info.found
    (extract_chunk_raw_from_region sample_gzip sample_zlib
       (inl "[Errno 2] No such file or directory: 'r.0.0.mca'") 3 4) = false /\
  main sample_gzip sample_zlib sample_json sample_args
       (inl "[Errno 2] No such file or directory: 'r.0.0.mca'") 3 4 = [].
Proof.
  assert (H : Info.found
                (extract_chunk_raw_from_region sample_gzip sample_zlib
                   (inl "[Errno 2] No such file or directory: 'r.0.0.mca'")
                   3 4) = false) by reflexivity.
  split; [exact H|].
  exact (not_found_writes_nothing sample_gzip sample_zlib sample_json
           sample_args _ 3 4 H).
Defined.

(** X3. An extraction records at most three diagnostics, so the cut to the
    first ten in the report of [main] never drops one. *)
Theorem diagnostics_never_truncated
        (gz zl : bytes -> string + bytes) (file : string + bytes) (cx cz : Z) :
  let r := extract_chunk_raw_from_region gz zl file cx cz in
  (List.length (Info.errors r) <= 3)%nat /\
  d_errors (make_diag r) = Info.errors r.
Proof.
  intros r. unfold r.
  destruct (extract_outcome gz zl file cx cz) as (r0 & Hr0 & Hout).
  destruct (outcome_errors _ _ Hout) as (_ & _ & es & Herr & Hlen).
  assert (Hbase : Info.errors r0 = [])
    by (destruct Hr0 as [-> | (o & c & ->)]; reflexivity).
  rewrite Hbase in Herr. cbn [app] in Herr.
  assert (Hle : (List.length
                   (Info.errors
                      (extract_chunk_raw_from_region gz zl file cx cz)) <= 3)%nat)
    by (rewrite Herr; exact Hlen).
  split; [exact Hle|].
  unfold make_diag. cbn [d_errors]. apply firstn_all2. lia.
Qed.

(** ** The location record *)

Lemma byte_val_bound (b : byte) : 0 <= byte_val b <= 255.
Proof.
  unfold byte_val. pose proof (Byte.to_N_bounded b). lia.
Qed.

Lemma slice_slice {A} (l : list A) (n a b : Z) :
  0 <= a -> a <= b -> b <= n -> slice (slice l 0 n) a b = slice l a b.
Proof.
  intros Ha Hab Hbn. unfold slice.
  rewrite Z.sub_0_r. change (Z.to_nat 0) with 0%nat. cbn [skipn].
  rewrite skipn_firstn_comm, firstn_firstn. f_equal. lia.
Qed.

Lemma slice_four (l : bytes) (a : Z) :
  0 <= a -> a + 4 <= len l ->
  slice l a (a + 4)
  = [byte_at l a; byte_at l (a + 1); byte_at l (a + 2); byte_at l (a + 3)].
Proof.
  intros Ha Hlen.
  change (slice l a (a + 4))
    with (firstn (Z.to_nat (a + 4 - a)) (slice_from l a)).
  replace (Z.to_nat (a + 4 - a)) with 4%nat by lia.
  rewrite (slice_from_unfold l a) by lia.
  rewrite (slice_from_unfold l (a + 1)) by lia.
  replace (a + 1 + 1) with (a + 2) by lia.
  rewrite (slice_from_unfold l (a + 2)) by lia.
  replace (a + 2 + 1) with (a + 3) by lia.
  rewrite (slice_from_unfold l (a + 3)) by lia.
  reflexivity.
Qed.

Lemma map_err_nth {A B} (f : A -> string + B) (l : list A) (bs : list B)
      (da : A) (db : B) (i : nat) :
  map_err f l = inr bs -> (i < List.length l)%nat ->
  f (nth i l da) = inr (nth i bs db).
Proof.
  revert bs i. induction l as [|a l IH]; intros bs i; cbn [map_err].
  - cbn. lia.
  - destruct (f a) as [|b] eqn:Hb; [discriminate|].
    destruct (map_err f l) as [|bs'] eqn:Hbs; [discriminate|].
    intros [= <-] Hi. destruct i as [|i]; [exact Hb|].
    cbn [nth]. apply IH; [reflexivity | cbn in Hi; lia].
Qed.

Lemma nth_py_range (a b : Z) (i : nat) :
  (i < Z.to_nat (b - a))%nat -> nth i (py_range a b) 0 = a + Z.of_nat i.
Proof.
  intros Hi. unfold py_range.
  transitivity (nth i (map (fun j => a + Z.of_nat j)
                           (seq 0 (Z.to_nat (b - a))))
                    ((fun j => a + Z.of_nat j) 0%nat)).
  - apply nth_indep. rewrite length_map, length_seq. exact Hi.
  - rewrite (map_nth (fun j => a + Z.of_nat j)), seq_nth by exact Hi.
    reflexivity.
Qed.

Lemma unpack_range_entry (header : bytes) (n : Z) (offsets : list Z) (idx : Z) :
  map_err (fun i => struct_unpack_I (slice header (i * 4) ((i + 1) * 4)))
          (py_range 0 n) = inr offsets ->
  0 <= idx < n ->
  struct_unpack_I (slice header (idx * 4) ((idx + 1) * 4))
  = inr (nth (Z.to_nat idx) offsets 0).
Proof.
  intros Hdec Hidx.
  assert (Hi : (Z.to_nat idx < List.length (py_range 0 n))%nat)
    by (rewrite length_py_range; lia).
  pose proof (map_err_nth _ _ _ 0 0 (Z.to_nat idx) Hdec Hi) as Hn.
  cbv beta in Hn.
  assert (Hnth : nth (Z.to_nat idx) (py_range 0 n) 0 = idx)
    by (rewrite nth_py_range by lia; lia).
  rewrite Hnth in Hn. exact Hn.
Qed.

Lemma unpack_slot (data : bytes) (hsize : Z) (idx : Z) (v : Z) :
  0 <= idx -> idx * 4 + 4 <= hsize -> hsize <= len data ->
  struct_unpack_I (slice (slice data 0 hsize) (idx * 4) ((idx + 1) * 4)) = inr v ->
  v = ((byte_val (byte_at data (idx * 4)) * 256
        + byte_val (byte_at data (idx * 4 + 1))) * 256
       + byte_val (byte_at data (idx * 4 + 2))) * 256
      + byte_val (byte_at data (idx * 4 + 3)).
Proof.
  intros Hidx Hin Hlen Hv.
  rewrite slice_slice in Hv by lia.
  replace ((idx + 1) * 4) with (idx * 4 + 4) in Hv by lia.
  rewrite slice_four in Hv by lia. cbn [struct_unpack_I] in Hv.
  now injection Hv as <-.
Qed.

Lemma decode_offsets_unfold (header : bytes) :
  decode_offsets header
  = map_err (fun i => struct_unpack_I (slice header (i * 4) ((i + 1) * 4)))
            (py_range 0 1024).
Proof. reflexivity. Qed.

(** The table entry of a slot is the big-endian value of its four bytes. *)
Lemma decode_offsets_entry (data : bytes) (offsets : list Z) (idx : Z) :
  8192 <= len data ->
  decode_offsets (slice data 0 8192) = inr offsets ->
  0 <= idx < 1024 ->
  nth (Z.to_nat idx) offsets 0
  = ((byte_val (byte_at data (idx * 4)) * 256
      + byte_val (byte_at data (idx * 4 + 1))) * 256
     + byte_val (byte_at data (idx * 4 + 2))) * 256
    + byte_val (byte_at data (idx * 4 + 3)).
Proof.
  intros Hlen Hdec Hidx. rewrite decode_offsets_unfold in Hdec.
  pose proof (unpack_range_entry _ 1024 offsets idx Hdec Hidx) as Hn.
  exact (unpack_slot data 8192 idx _ ltac:(lia) ltac:(lia) Hlen Hn).
Qed.

Lemma extract_located_outcome
      (gz zl : bytes -> string + bytes) (data : bytes) (cx cz : Z)
      (offsets : list Z) :
  8192 <= len data ->
  decode_offsets (slice data 0 8192) = inr offsets ->
  let entry := nth (Z.to_nat (chunk_index cx cz)) offsets 0 in
  outcome (Info.set_location (Z.shiftr entry 8) (Z.land entry 255) Info.init)
          (extract_chunk_raw_from_region gz zl (inr data) cx cz).
Proof.
  intros Hlen Hdec entry.
  unfold extract_chunk_raw_from_region, extract_run.
  rewrite (extract_body_located gz zl data cx cz offsets Hlen Hdec).
  cbv zeta. fold entry.
  pose proof (decode_offsets_nonneg _ _ (Z.to_nat (chunk_index cx cz)) Hdec)
    as Hentry. fold entry in Hentry.
  assert (Ho : 0 <= Z.shiftr entry 8) by (apply Z.shiftr_nonneg; exact Hentry).
  destruct (Z.shiftr entry 8 =? 0) eqn:Hzero.
  - exact (out_failed _ [_] ltac:(cbn; lia)).
  - apply Z.eqb_neq in Hzero.
    match goal with
    | |- outcome ?r0 (fst (let (s0, s) := read_entry gz zl ?st ?s' in _)) =>
        pose proof (read_entry_outcome gz zl st s' ltac:(lia)) as Hout;
        destruct (read_entry gz zl st s') as [[e|u] s'']; exact Hout
    end.
Qed.

(** X4. For a file that holds a full header, the location fields of the
    result come from the four bytes of the slot [chunk_index cx cz]:
    offset_sector is the big-endian value of the first three and
    sector_count is the fourth, on every path of the extraction. *)
Theorem location_fields_from_slot
        (gz zl : bytes -> string + bytes) (data : bytes) (cx cz : Z) :
  let slot := chunk_index cx cz * 4 in
  let r := extract_chunk_raw_from_region gz zl (inr data) cx cz in
  8192 <= len data ->
  Info.offset_sector r
  = Some ((byte_val (byte_at data slot) * 256
           + byte_val (byte_at data (slot + 1))) * 256
          + byte_val (byte_at data (slot + 2))) /\
  Info.sector_count r = Some (byte_val (byte_at data (slot + 3))).
Proof.
  intros slot r Hlen.
  assert (Hh : 8192 <= len (slice data 0 8192)) by (rewrite len_slice; lia).
  destruct (decode_offsets_total _ Hh) as [offsets Hdec].
  pose proof (extract_located_outcome gz zl data cx cz offsets Hlen Hdec)
    as Hout. cbv zeta in Hout.
  destruct (outcome_errors _ _ Hout) as (Ho & Hc & _).
  cbn [Info.set_location Info.offset_sector Info.sector_count] in Ho, Hc.
  unfold r. rewrite Ho, Hc.
  pose proof (chunk_index_range cx cz) as Hidx.
  rewrite (decode_offsets_entry data offsets (chunk_index cx cz) Hlen Hdec)
    by lia.
  fold slot.
  pose proof (byte_val_bound (byte_at data slot)).
  pose proof (byte_val_bound (byte_at data (slot + 1))).
  pose proof (byte_val_bound (byte_at data (slot + 2))).
  pose proof (byte_val_bound (byte_at data (slot + 3))) as H3.
  set (hi := (byte_val (byte_at data slot) * 256
              + byte_val (byte_at data (slot + 1))) * 256
             + byte_val (byte_at data (slot + 2))).
  split; f_equal.
  - rewrite Z.shiftr_div_pow2 by lia. change (2 ^ 8) with 256.
    rewrite Z.div_add_l by lia. rewrite Z.div_small by lia. lia.
  - change 255 with (Z.ones 8). rewrite Z.land_ones by lia.
    change (2 ^ 8) with 256.
    rewrite Z.add_comm, Z.mod_add by lia. apply Z.mod_small. lia.
Qed.

Lemma location_fields_from_slot_witness :
  let data := region_file [x12; x34; x56; x07] [] in
  8192 <= len data /\
  Info.offset_sector
    (extract_chunk_raw_from_region sample_gzip sample_zlib (inr data) 32 (-64))
  = Some 1193046 /\
  Info.sector_count
    (extract_chunk_raw_from_region sample_gzip sample_zlib (inr data) 32 (-64))
  = Some 7.
Proof.
  intros data.
  assert (Hlen : 8192 <= len data) by (vm_compute; discriminate).
  split; [exact Hlen|].
  destruct (location_fields_from_slot sample_gzip sample_zlib data 32 (-64)
              Hlen) as [Ho Hc].
  split.
  - etransitivity; [exact Ho | vm_compute; reflexivity].
  - etransitivity; [exact Hc | vm_compute; reflexivity].
Defined.

(** ** The standard path on a well-formed entry *)

Lemma slice_app {A} (l : list A) (a b c : Z) :
  0 <= a -> a <= b -> b <= c -> slice l a b ++ slice l b c = slice l a c.
Proof.
  intros Ha Hab Hbc. unfold slice.
  rewrite <- (firstn_skipn (Z.to_nat (b - a))
                           (firstn (Z.to_nat (c - a)) (skipn (Z.to_nat a) l))).
  rewrite firstn_firstn, skipn_firstn_comm, skipn_skipn.
  f_equal; f_equal; try lia. f_equal. lia.
Qed.

Lemma slice_from_slice {A} (l : list A) (a b : Z) :
  0 <= a -> slice_from (slice l a b) 1 = slice l (a + 1) b.
Proof.
  intros Ha. unfold slice_from, slice.
  rewrite skipn_firstn_comm, skipn_skipn. f_equal; [lia|]. f_equal. lia.
Qed.

Lemma slice_empty {A} (l : list A) (a b : Z) : b <= a -> slice l a b = [].
Proof.
  intros H. unfold slice. replace (Z.to_nat (b - a)) with 0%nat by lia.
  reflexivity.
Qed.

Lemma extract_standard_entry
        (gz zl : bytes -> string + bytes) (data : bytes) (cx cz : Z)
        (offsets : list Z) (L : Z) :
  let entry := nth (Z.to_nat (chunk_index cx cz)) offsets 0 in
  let start := Z.shiftr entry 8 * 4096 in
  8192 <= len data ->
  decode_offsets (slice data 0 8192) = inr offsets ->
  Z.shiftr entry 8 <> 0 ->
  start + 4 <= len data ->
  struct_unpack_I (slice data start (start + 4)) = inr L ->
  1 <= L <= len data - (start + 4) ->
  extract_run gz zl (inr data) cx cz
  = (Info.mk true [] (Some (Z.shiftr entry 8)) (Some (Z.land entry 255))
             (Some L) (Some (Some (byte_val (byte_at data (start + 4)))))
             (Some (slice data (start + 5) (start + 4 + L)))
             (Some (slice data start (start + 4 + L))) None,
     Some (mkHandle data (start + 4 + L)
                    [(0, 8192); (start, 4); (start + 4, L)])).
Proof.
  intros entry start Hlen Hdec Hpresent Hhead Hun HL.
  pose proof (decode_offsets_nonneg _ _ (Z.to_nat (chunk_index cx cz)) Hdec)
    as Hentry.
  fold entry in Hentry.
  assert (Ho : 0 <= Z.shiftr entry 8) by (apply Z.shiftr_nonneg; exact Hentry).
  assert (Hstart : 0 <= start) by (unfold start; lia).
  unfold extract_run.
  rewrite (extract_body_located gz zl data cx cz offsets Hlen Hdec).
  cbv zeta. fold entry. apply Z.eqb_neq in Hpresent. rewrite Hpresent.
  fold start. rewrite read_entry_inside by lia.
  rewrite (bind_inr _ _ _ _ _
             (standard_read_ok start data _ _ _ L Hstart Hhead Hun
                               ltac:(lia))).
  cbv zeta. cbn [ret fh res app].
  assert (Hc : len (slice data (start + 4) (start + 4 + L)) = L)
    by (rewrite len_slice by lia; lia).
  rewrite Hc.
  replace (L >? 0) with true by (symmetry; apply Z.gtb_lt; lia).
  rewrite byte_at_slice by lia. rewrite Z.add_0_r.
  rewrite slice_app by lia.
  destruct (L >? 1) eqn:H1.
  - rewrite slice_from_slice by lia.
    replace (start + 4 + 1) with (start + 5) by lia. reflexivity.
  - rewrite Z.gtb_ltb in H1. apply Z.ltb_ge in H1.
    rewrite (slice_empty data (start + 5) (start + 4 + L)) by lia.
    reflexivity.
Qed.

(** X5. A well-formed entry (the slot points inside the file, the four
    length bytes are there and the [L >= 1] declared bytes are all there) is
    returned by the standard path alone: found = true, no diagnostic, the
    declared length, the first declared byte as compression tag, the
    remaining [L - 1] bytes as compressed_bytes and the [4 + L] bytes from the
    declared offset as raw_sector_data; after the header the file is read
    exactly twice (length, payload) and no scan is made. *)
Theorem standard_entry_extracted
        (gz zl : bytes -> string + bytes) (data : bytes) (cx cz : Z)
        (offsets : list Z) (L : Z) :
  let entry := nth (Z.to_nat (chunk_index cx cz)) offsets 0 in
  let start := Z.shiftr entry 8 * 4096 in
  8192 <= len data ->
  decode_offsets (slice data 0 8192) = inr offsets ->
  Z.shiftr entry 8 <> 0 ->
  start + 4 <= len data ->
  struct_unpack_I (slice data start (start + 4)) = inr L ->
  1 <= L <= len data - (start + 4) ->
  extract_run gz zl (inr data) cx cz
  = (Info.mk true [] (Some (Z.shiftr entry 8)) (Some (Z.land entry 255))
             (Some L) (Some (Some (byte_val (byte_at data (start + 4)))))
             (Some (slice data (start + 5) (start + 4 + L)))
             (Some (slice data start (start + 4 + L))) None,
     Some (mkHandle data (start + 4 + L)
                    [(0, 8192); (start, 4); (start + 4, L)])).
Proof. exact (extract_standard_entry gz zl data cx cz offsets L). Qed.

Lemma standard_entry_extracted_witness :
  let data := region_file [x00; x00; x02; x01]
                [x00; x00; x00; x03; x02; x78; x9c; xff] in
  8192 <= len data /\
  extract_chunk_raw_from_region sample_gzip sample_zlib (inr data) 0 0
  = Info.mk true [] (Some 2) (Some 1) (Some 3) (Some (Some 2))
            (Some [x78; x9c]) (Some [x00; x00; x00; x03; x02; x78; x9c]) None.
Proof.
  intros data.
  set (offsets := 513 :: repeat 0 (Z.to_nat 1023)).
  assert (Hlen : 8192 <= len data) by (vm_compute; discriminate).
  assert (Hdec : decode_offsets (slice data 0 8192) = inr offsets)
    by (vm_compute; reflexivity).
  assert (Hpres : Z.shiftr (nth (Z.to_nat (chunk_index 0 0)) offsets 0) 8 <> 0)
    by (vm_compute; discriminate).
  assert (Hhead : 8192 + 4 <= len data) by (vm_compute; discriminate).
  assert (Hun : struct_unpack_I (slice data 8192 (8192 + 4)) = inr 3)
    by (vm_compute; reflexivity).
  assert (HL : 1 <= 3 <= len data - (8192 + 4))
    by (vm_compute; split; discriminate).
  split; [exact Hlen|].
  unfold extract_chunk_raw_from_region.
  etransitivity;
    [exact (f_equal fst
              (standard_entry_extracted sample_gzip sample_zlib data 0 0
                 offsets 3 Hlen Hdec Hpres Hhead Hun HL))
    | vm_compute; reflexivity].
Defined.

(** ** An offset at or beyond the end of the file *)

Lemma read_entry_beyond
      (gz zl : bytes -> string + bytes) (start : Z) (data : bytes) (p : Z)
      (rs : list (Z * Z)) (r : Info.t) :
  len data <= start ->
  read_entry gz zl start (mkState (mkHandle data p rs) r)
  = bind (standard_read start)
         (fun returned => if returned then ret tt else recovery_scan gz zl start)
         (mkState (mkHandle data (len data) rs)
                  (Info.append_error (msg_beyond start (len data)) r)).
Proof.
  intros H. unfold read_entry.
  unfold bind at 1. unfold f_seek_end. cbn [fh content reads res].
  unfold bind at 1. unfold f_tell. cbn [fh pos].
  rewrite Z.geb_leb.
  replace (len data <=? start) with true by (symmetry; apply Z.leb_le; lia).
  rewrite bind_add_error. reflexivity.
Qed.

(** X6. When the slot points at or beyond the end of the file, the result
    is found = false with exactly three diagnostics: the offset beyond the
    file, the short read of the length header, and then either "No
    gzip/zlib header found during scan." (offset at the end of the file or
    one byte past it) or, when the offset is further out, the refusal of the
    negative read size, reported as "IO error opening region: ..."; in that
    last case no scan is made.  No bytes are returned. *)
Theorem offset_beyond_file
        (gz zl : bytes -> string + bytes) (data : bytes) (cx cz : Z)
        (offsets : list Z) :
  let entry := nth (Z.to_nat (chunk_index cx cz)) offsets 0 in
  let start := Z.shiftr entry 8 * 4096 in
  8192 <= len data ->
  decode_offsets (slice data 0 8192) = inr offsets ->
  Z.shiftr entry 8 <> 0 ->
  len data <= start ->
  extract_chunk_raw_from_region gz zl (inr data) cx cz
  = Info.mk false
      [msg_beyond start (len data);
       "Couldn't read length header (short read).";
       if len data - start <? -1
       then "IO error opening region: read length must be non-negative or -1"
       else "No gzip/zlib header found during scan."]
      (Some (Z.shiftr entry 8)) (Some (Z.land entry 255))
      None None None None None.
Proof.
  intros entry start Hlen Hdec Hpresent Hbeyond.
  pose proof (decode_offsets_nonneg _ _ (Z.to_nat (chunk_index cx cz)) Hdec)
    as Hentry.
  fold entry in Hentry.
  assert (Ho : 0 <= Z.shiftr entry 8) by (apply Z.shiftr_nonneg; exact Hentry).
  assert (Hstart : 4096 <= start) by (unfold start; lia).
  unfold extract_chunk_raw_from_region, extract_run.
  rewrite (extract_body_located gz zl data cx cz offsets Hlen Hdec).
  cbv zeta. fold entry. apply Z.eqb_neq in Hpresent. rewrite Hpresent.
  fold start. rewrite read_entry_beyond by exact Hbeyond.
  rewrite (bind_inr _ _ _ _ _
             (standard_read_short_header start data _ _ _ ltac:(lia)
                                         ltac:(lia))).
  match goal with
  | |- fst (let (s0, s) := recovery_scan gz zl start ?s1 in _) = _ =>
      pose proof (recovery_scan_beyond gz zl start data
                    (pos (fh s1)) (reads (fh s1)) (res s1) Hbeyond Hstart)
        as Hscan;
      cbn [fh pos reads res] in Hscan;
      destruct (recovery_scan gz zl start s1) as [[e|u] s'];
      cbn [finish fst] in *; rewrite Hscan
  end; reflexivity.
Qed.

Lemma offset_beyond_file_witness :
  let data := region_file [x00; x00; x09; x01] [] in
  len data <= 9 * 4096 /\
  extract_chunk_raw_from_region sample_gzip sample_zlib (inr data) 0 0
  = Info.mk false
      ["Offset points beyond file (start=36864, file=8192).";
       "Couldn't read length header (short read).";
       "IO error opening region: read length must be non-negative or -1"]
      (Some 9) (Some 1) None None None None None.
Proof.
  intros data.
  set (offsets := 2305 :: repeat 0 (Z.to_nat 1023)).
  assert (Hlen : 8192 <= len data) by (vm_compute; discriminate).
  assert (Hdec : decode_offsets (slice data 0 8192) = inr offsets)
    by (vm_compute; reflexivity).
  assert (Hpres : Z.shiftr (nth (Z.to_nat (chunk_index 0 0)) offsets 0) 8 <> 0)
    by (vm_compute; discriminate).
  assert (Hb : len data <= 9 * 4096) by (vm_compute; discriminate).
  split; [exact Hb|].
  etransitivity;
    [exact (offset_beyond_file sample_gzip sample_zlib data 0 0 offsets
              Hlen Hdec Hpres Hb)
    | vm_compute; reflexivity].
Defined.

(** ** Recovery of an entry whose declared length is too large *)

Lemma try_candidate_eq
      (gz zl : bytes -> string + bytes) (c : Z) (ty : cand) (data : bytes)
      (p : Z) (rs : list (Z * Z)) (r : Info.t) :
  0 <= c -> c <= len data ->
  finish (try_candidate gz zl (len data) c ty (mkState (mkHandle data p rs) r))
  = let tail := slice data c (c + Z.min (8 * 1024 * 1024) (len data - c)) in
    let r2 := Info.append_error (msg_candidate c ty) r in
    match decompress_with gz zl ty (Some tail) with
    | inr dec => Info.set_recovered (cand_tag ty) tail dec r2
    | inl e =>
        Info.append_error ("Decompression from candidate failed: " ++ e)%string
                          r2
    end.
Proof.
  intros Hc Hle. unfold try_candidate.
  rewrite bind_add_error. cbn [fh res].
  rewrite (bind_inr _ _ _ _ _ (f_seek_ok c data p rs _ Hc)).
  rewrite (bind_inr _ _ _ _ _
             (f_read_ok (Z.min (8 * 1024 * 1024) (len data - c)) data c rs _
                        ltac:(lia))).
  cbv zeta. unfold try_except, bind, decompress_with.
  destruct ty; [destruct (gz _) | destruct (zl _)]; reflexivity.
Qed.

Lemma extract_short_payload
      (gz zl : bytes -> string + bytes) (data : bytes) (cx cz : Z)
      (offsets : list Z) (L : Z) :
  let entry := nth (Z.to_nat (chunk_index cx cz)) offsets 0 in
  let start := Z.shiftr entry 8 * 4096 in
  8192 <= len data ->
  decode_offsets (slice data 0 8192) = inr offsets ->
  Z.shiftr entry 8 <> 0 ->
  start + 4 <= len data ->
  struct_unpack_I (slice data start (start + 4)) = inr L ->
  len data - (start + 4) < L ->
  4096 <= start /\
  extract_chunk_raw_from_region gz zl (inr data) cx cz
  = finish (recovery_scan gz zl start
              (mkState (mkHandle data (len data)
                                 [(0, 8192); (start, 4); (start + 4, L)])
                       (Info.append_error
                          (msg_length_mismatch L (len data - (start + 4)))
                          (Info.set_location (Z.shiftr entry 8)
                                             (Z.land entry 255) Info.init)))).
Proof.
  intros entry start Hlen Hdec Hpresent Hhead Hun Hshort.
  pose proof (decode_offsets_nonneg _ _ (Z.to_nat (chunk_index cx cz)) Hdec)
    as Hentry.
  fold entry in Hentry.
  assert (Ho : 0 <= Z.shiftr entry 8) by (apply Z.shiftr_nonneg; exact Hentry).
  assert (Hstart : 4096 <= start) by (unfold start; lia).
  split; [exact Hstart|].
  unfold extract_chunk_raw_from_region, extract_run.
  rewrite (extract_body_located gz zl data cx cz offsets Hlen Hdec).
  cbv zeta. fold entry. apply Z.eqb_neq in Hpresent. rewrite Hpresent.
  fold start. rewrite read_entry_inside by lia.
  rewrite (bind_inr _ _ _ _ _
             (standard_read_mismatch start data _ _ _ L ltac:(lia) Hhead Hun
                                     Hshort)).
  cbn [app]. unfold finish.
  destruct (recovery_scan gz zl start _) as [[e|u] s']; reflexivity.
Qed.

Lemma extract_recovered
        (gz zl : bytes -> string + bytes) (data : bytes) (cx cz : Z)
        (offsets : list Z) (L c : Z) (ty : cand) :
  let entry := nth (Z.to_nat (chunk_index cx cz)) offsets 0 in
  let start := Z.shiftr entry 8 * 4096 in
  let block := slice data start (Z.min (len data) (start + 4 * 1024 * 1024)) in
  let tail := slice data c (c + Z.min (8 * 1024 * 1024) (len data - c)) in
  let r2 := Info.append_error (msg_candidate c ty)
              (Info.append_error
                 (msg_length_mismatch L (len data - (start + 4)))
                 (Info.set_location (Z.shiftr entry 8) (Z.land entry 255)
                                    Info.init)) in
  8192 <= len data ->
  decode_offsets (slice data 0 8192) = inr offsets ->
  Z.shiftr entry 8 <> 0 ->
  start + 4 <= len data ->
  struct_unpack_I (slice data start (start + 4)) = inr L ->
  len data - (start + 4) < L ->
  find_candidate block start = Some (c, ty) ->
  start <= c < len data /\
  len tail <= 8 * 1024 * 1024 /\
  extract_chunk_raw_from_region gz zl (inr data) cx cz
  = match decompress_with gz zl ty (Some tail) with
    | inr dec => Info.set_recovered (cand_tag ty) tail dec r2
    | inl e =>
        Info.append_error ("Decompression from candidate failed: " ++ e)%string
                          r2
    end.
Proof.
  intros entry start block tail r2 Hlen Hdec Hpresent Hhead Hun Hshort Hfind.
  destruct (extract_short_payload gz zl data cx cz offsets L Hlen Hdec
              Hpresent Hhead Hun Hshort) as [Hstart Hr].
  fold entry in Hstart, Hr. fold start in Hstart, Hr.
  pose proof (find_candidate_bounds _ _ _ _ Hfind) as Hb.
  unfold block in Hb. rewrite len_slice in Hb by lia.
  assert (Hc : start <= c < len data) by lia.
  split; [exact Hc|]. split.
  { unfold tail. rewrite len_slice by lia. lia. }
  rewrite Hr, recovery_scan_eq. cbv zeta.
  replace (Z.max start 4096) with start by lia.
  change SCAN_LIMIT with (4 * 1024 * 1024).
  set (n := Z.min (len data) (start + 4 * 1024 * 1024) - start).
  replace (n <? -1) with false by (symmetry; apply Z.ltb_ge; unfold n; lia).
  rewrite read_bytes_slice by (unfold n; lia).
  replace (start + n) with (Z.min (len data) (start + 4 * 1024 * 1024))
    by (unfold n; lia).
  fold block. rewrite Hfind.
  rewrite try_candidate_eq by lia. reflexivity.
Qed.

(** X7. An entry whose declared length runs past the end of the file, with
    a signature found in the window that starts at the declared offset: the
    bytes from the candidate position to the end of the file (8 MiB at most)
    are given to the method of the signature.  If it succeeds the result is
    found = true with tag 1 or 2, these bytes as compressed_bytes and the
    decompressed bytes, after the length-mismatch and candidate diagnostics;
    if it fails the result stays found = false with a third diagnostic
    carrying the decompressor's message. *)
Theorem corrupted_length_recovered
        (gz zl : bytes -> string + bytes) (data : bytes) (cx cz : Z)
        (offsets : list Z) (L c : Z) (ty : cand) :
  let entry := nth (Z.to_nat (chunk_index cx cz)) offsets 0 in
  let start := Z.shiftr entry 8 * 4096 in
  let block := slice data start (Z.min (len data) (start + 4 * 1024 * 1024)) in
  let tail := slice data c (c + Z.min (8 * 1024 * 1024) (len data - c)) in
  let r2 := Info.append_error (msg_candidate c ty)
              (Info.append_error
                 (msg_length_mismatch L (len data - (start + 4)))
                 (Info.set_location (Z.shiftr entry 8) (Z.land entry 255)
                                    Info.init)) in
  8192 <= len data ->
  decode_offsets (slice data 0 8192) = inr offsets ->
  Z.shiftr entry 8 <> 0 ->
  start + 4 <= len data ->
  struct_unpack_I (slice data start (start + 4)) = inr L ->
  len data - (start + 4) < L ->
  find_candidate block start = Some (c, ty) ->
  start <= c < len data /\
  len tail <= 8 * 1024 * 1024 /\
  extract_chunk_raw_from_region gz zl (inr data) cx cz
  = match decompress_with gz zl ty (Some tail) with
    | inr dec => Info.set_recovered (cand_tag ty) tail dec r2
    | inl e =>
        Info.append_error ("Decompression from candidate failed: " ++ e)%string
                          r2
    end.
Proof. exact (extract_recovered gz zl data cx cz offsets L c ty). Qed.

Lemma corrupted_length_recovered_witness :
  let data := region_file [x00; x00; x02; x01]
                [x00; x00; xff; xff; x02; x78; x9c; x0a; x0b] in
  find_candidate (slice data 8192 (Z.min (len data) (8192 + 4 * 1024 * 1024)))
                 8192 = Some (8197, zlib) /\
  extract_chunk_raw_from_region sample_gzip sample_zlib_stored (inr data) 0 0
  = Info.mk true
      ["Chunk length 65535 but only read 5 bytes.";
       "Could not read by header; found candidate compressed stream at file offset 8197 (zlib). Will try to extract."]
      (Some 2) (Some 1) None (Some (Some 2)) (Some [x78; x9c; x0a; x0b]) None
      (Some [x0a; x0b]).
Proof.
  intros data.
  set (offsets := 513 :: repeat 0 (Z.to_nat 1023)).
  assert (Hlen : 8192 <= len data) by (vm_compute; discriminate).
  assert (Hdec : decode_offsets (slice data 0 8192) = inr offsets)
    by (vm_compute; reflexivity).
  assert (Hpres : Z.shiftr (nth (Z.to_nat (chunk_index 0 0)) offsets 0) 8 <> 0)
    by (vm_compute; discriminate).
  assert (Hhead : 8192 + 4 <= len data) by (vm_compute; discriminate).
  assert (Hun : struct_unpack_I (slice data 8192 (8192 + 4)) = inr 65535)
    by (vm_compute; reflexivity).
  assert (Hs : len data - (8192 + 4) < 65535) by (vm_compute; reflexivity).
  assert (Hf : find_candidate
                 (slice data 8192 (Z.min (len data) (8192 + 4 * 1024 * 1024)))
                 8192 = Some (8197, zlib)) by (vm_compute; reflexivity).
  split; [exact Hf|].
  etransitivity;
    [exact (proj2 (proj2
              (corrupted_length_recovered sample_gzip sample_zlib_stored data
                 0 0 offsets 65535 8197 zlib Hlen Hdec Hpres Hhead Hun Hs Hf)))
    | vm_compute; reflexivity].
Defined.

(** ** From the extracted chunk to the files written *)

Lemma opt_Z_eqb_tag (m : cand) :
  opt_Z_eqb (Some (cand_tag m)) 1 = match m with gzip => true | zlib => false end /\
  opt_Z_eqb (Some (cand_tag m)) 2 = match m with gzip => false | zlib => true end.
Proof. destruct m; split; reflexivity. Qed.







(** X10. Whatever the extraction returned, [main] writes at most one JSON
    file and at most one file of bytes; a JSON file, if any, is [out] and is
    written first; and when the chunk was found at least one file is
    written. *)
Theorem main_writes_shape
        (gz zl : bytes -> string + bytes) (nbt : bytes -> string + string)
        (a : args) (info : Info.t) :
  let w := main_writes gz zl nbt a info in
  (List.length (filter is_write_json w) <= 1)%nat /\
  (List.length (filter is_write_bytes w) <= 1)%nat /\
  (forall name d js, In (WriteJson name d js) w ->
     name = out a /\ exists rest, w = WriteJson name d js :: rest) /\
  (Info.found info = true -> w <> []).
Proof.
  intros w. unfold w, main_writes, write_raw_nbt.
  destruct (Info.found info); cbn [negb];
    [destruct (decompress_chunk gz zl info) as [log [[dec c]|]]
    |destruct (Info.decompressed_bytes info) as [dec|]];
    try (destruct (nbt dec) as [e|js]);
    try (destruct (truthy (raw_nbt_out a)) as [name|]);
    cbn [filter is_write_json is_write_bytes List.length In];
    (split; [lia|]); (split; [lia|]);
    (split;
     [ intros n0 d0 j0 Hin;
       repeat match type of Hin with
              | _ \/ _ => destruct Hin as [Hin|Hin]
              | False => destruct Hin
              | WriteBytes _ _ = WriteJson _ _ _ => discriminate Hin
              | WriteJson _ _ _ = WriteJson _ _ _ =>
                  injection Hin as <- <- <-;
                  split; [reflexivity | eexists; reflexivity]
              end
     | intros Hf; (discriminate Hf || discriminate) ]).
Qed.

(** ** The fallback over the raw sector block *)

Lemma slice_from_nonempty (l : bytes) (k : Z) :
  0 <= k < len l -> nonempty (slice_from l k) = true.
Proof. intros H. now rewrite slice_from_unfold. Qed.

(** The fallback, with its test of the candidate slice resolved. *)
Lemma rescan_raw_eq
        (gz zl : bytes -> string + bytes) (raw : bytes) :
  let g := bytes_find raw [x1f; x8b] in
  let z := bytes_find raw [x78] in
  rescan_raw gz zl raw
  = if negb (g =? -1) then
      ([(gzip, slice_from raw g)],
       match gz (slice_from raw g) with
       | inr d => Some (d, 1)
       | inl _ => None
       end)
    else if negb (z =? -1) then
      ([(zlib, slice_from raw z)],
       match zl (slice_from raw z) with
       | inr d => Some (d, 2)
       | inl _ => None
       end)
    else ([], None).
Proof.
  unfold rescan_raw. cbv zeta.
  destruct (bytes_find_cases raw [x1f; x8b] (cons_not_nil _ _))
    as [[Hg _] | [Hg _]].
  - rewrite Hg, Z.eqb_refl. cbn [negb].
    destruct (bytes_find_cases raw [x78] (cons_not_nil _ _))
      as [[Hz _] | [Hz _]].
    + rewrite Hz, Z.eqb_refl. reflexivity.
    + replace (bytes_find raw [x78] =? -1) with false
        by (symmetry; apply Z.eqb_neq; lia).
      cbn [negb]. rewrite slice_from_nonempty by lia.
      cbn [decompress_with]. destruct (zl _); reflexivity.
  - replace (bytes_find raw [x1f; x8b] =? -1) with false
      by (symmetry; apply Z.eqb_neq; lia).
    cbn [negb]. rewrite slice_from_nonempty by lia.
    cbn [decompress_with]. destruct (gz _); reflexivity.
Qed.

(** What is left of the decompression of [main] once the first [try] has
    raised: the attempts logged so far, then the fallback. *)
Lemma decompress_chunk_after_failure
      (gz zl : bytes -> string + bytes) (info : Info.t) (log : list attempt)
      (e : string) :
  decompress_declared gz zl (get_compression info) (Info.compressed_bytes info)
  = (log, inl e) ->
  decompress_chunk gz zl info
  = (log ++ fst (raw_fallback gz zl (Info.raw_sector_data info)),
     snd (raw_fallback gz zl (Info.raw_sector_data info))).
Proof.
  intros Hdecl. unfold decompress_chunk. rewrite Hdecl.
  destruct (Info.raw_sector_data info) as [raw|];
    [|cbn; now rewrite app_nil_r].
  unfold raw_fallback. cbv zeta.
  destruct (nonempty raw) eqn:Hne.
  - rewrite rescan_raw_eq. cbv zeta.
    destruct (negb (bytes_find raw [x1f; x8b] =? -1)).
    + destruct (gz _); reflexivity.
    + destruct (negb (bytes_find raw [x78] =? -1)).
      * destruct (zl _); reflexivity.
      * reflexivity.
  - destruct raw; [|discriminate]. cbn. now rewrite app_nil_r.
Qed.

(** C1, as the code has it.  With a known hint (tag 1 or 2) the hinted
    method is tried on the compressed bytes, and that is the only attempt
    when it succeeds.  When it fails no alternate-method step follows: the
    next step is the fallback over the raw sector block, which makes at most
    one attempt (gzip on the raw block from its first [1f 8b], else zlib on
    the raw block from its first [78], else none; none without a raw
    block), so the attempts are exactly the hinted one followed by that of
    the fallback, and the outcome is the fallback's.  The slice the fallback
    tries can coincide with the compressed bytes.  With a tag other than 1
    and 2, gzip is tried on the compressed bytes, then zlib on the
    compressed bytes if gzip failed, and the fallback only if both
    failed. *)
Theorem known_hint_goes_straight_to_rescan
        (gz zl : bytes -> string + bytes) (info : Info.t) (compressed : bytes) :
  Info.compressed_bytes info = Some compressed ->
  let fallback := raw_fallback gz zl (Info.raw_sector_data info) in
  (forall c,
     get_compression info = Some c -> c = 1 \/ c = 2 ->
     let m := if c =? 1 then gzip else zlib in
     decompress_chunk gz zl info
     = match decompress_with gz zl m (Some compressed) with
       | inr d => ([(m, compressed)], Some (d, Some c))
       | inl _ => ((m, compressed) :: fst fallback, snd fallback)
       end) /\
  (opt_Z_eqb (get_compression info) 1 = false ->
   opt_Z_eqb (get_compression info) 2 = false ->
   decompress_chunk gz zl info
   = match gz compressed with
     | inr d => ([(gzip, compressed)], Some (d, Some 1))
     | inl _ =>
         match zl compressed with
         | inr d => ([(gzip, compressed); (zlib, compressed)], Some (d, Some 2))
         | inl _ =>
             ((gzip, compressed) :: (zlib, compressed) :: fst fallback,
              snd fallback)
         end
     end).
Proof.
  intros Hcomp fallback. split.
  - intros c Hc Hknown m.
    destruct (decompress_with gz zl m (Some compressed)) as [e|d] eqn:Hd.
    + unfold fallback.
      rewrite (decompress_chunk_after_failure gz zl info [(m, compressed)] e);
        [reflexivity|].
      rewrite Hc, Hcomp. unfold decompress_declared, m in *.
      destruct Hknown as [-> | ->]; cbn [opt_Z_eqb Z.eqb Pos.eqb] in *;
        cbn [logged]; now rewrite Hd.
    + unfold decompress_chunk, decompress_declared, m in *.
      rewrite Hc, Hcomp.
      destruct Hknown as [-> | ->]; cbn [opt_Z_eqb Z.eqb Pos.eqb] in *;
        cbn [logged]; now rewrite Hd.
  - intros H1 H2.
    destruct (gz compressed) as [e|d] eqn:Hg.
    + destruct (zl compressed) as [e'|d'] eqn:Hz.
      * unfold fallback.
        rewrite (decompress_chunk_after_failure gz zl info
                   [(gzip, compressed); (zlib, compressed)] e');
          [reflexivity|].
        unfold decompress_declared. rewrite H1, H2, Hcomp.
        cbn [decompress_with logged app]. now rewrite Hg, Hz.
      * unfold decompress_chunk, decompress_declared.
        rewrite H1, H2, Hcomp. cbn [decompress_with logged app].
        now rewrite Hg, Hz.
    + unfold decompress_chunk, decompress_declared.
      rewrite H1, H2, Hcomp. cbn [decompress_with logged app].
      now rewrite Hg.
Qed.

Lemma known_hint_goes_straight_to_rescan_witness :
  let info := Info.mk true [] (Some 2) (Some 1) (Some 3) (Some (Some 1))
                      (Some [x78; x9c])
                      (Some [x00; x00; x00; x03; x01; x78; x9c]) None in
  Info.compressed_bytes info = Some [x78; x9c] /\
  decompress_chunk sample_gzip sample_zlib_stored info
  = ([(gzip, [x78; x9c]); (zlib, [x78; x9c])], Some ([], Some 2)).
Proof.
  intros info.
  assert (Hc : Info.compressed_bytes info = Some [x78; x9c]) by reflexivity.
  split; [exact Hc|].
  etransitivity;
    [exact (proj1 (known_hint_goes_straight_to_rescan sample_gzip
                     sample_zlib_stored info [x78; x9c] Hc)
                  1 eq_refl (or_introl eq_refl))
    | vm_compute; reflexivity].
Defined.

(** X12. Whenever the decompression of [main] ends with decompressed bytes,
    these bytes are the output of the last attempt logged, the tag returned
    with them is the tag of the method of that attempt (1 for gzip, 2 for
    zlib), and the input of that attempt is the compressed bytes of the
    result or a part of its raw block from some position to the end. *)
Theorem decompress_chunk_sound
        (gz zl : bytes -> string + bytes) (info : Info.t)
        (log : list attempt) (d : bytes) (c : option Z) :
  decompress_chunk gz zl info = (log, Some (d, c)) ->
  exists m input before,
    log = before ++ [(m, input)] /\
    decompress_with gz zl m (Some input) = inr d /\
    c = Some (cand_tag m) /\
    (Info.compressed_bytes info = Some input \/
     exists raw k, Info.raw_sector_data info = Some raw /\
                   0 <= k < len raw /\ input = slice_from raw k).
Proof.
  unfold decompress_chunk, decompress_declared.
  destruct (Info.compressed_bytes info) as [compressed|].
  2:{ cbn [decompress_with logged app].
      destruct (opt_Z_eqb _ 1); [|destruct (opt_Z_eqb _ 2)];
        (destruct (Info.raw_sector_data info) as [raw|]; [|discriminate]);
        (destruct (nonempty raw); [|discriminate]);
        rewrite (rescan_raw_eq gz zl raw); cbv zeta;
        (destruct (bytes_find_cases raw [x1f; x8b] (cons_not_nil _ _))
          as [[Hg _] | [Hg _]];
         [ rewrite Hg, Z.eqb_refl; cbn [negb];
           destruct (bytes_find_cases raw [x78] (cons_not_nil _ _))
             as [[Hz _] | [Hz _]];
           [ rewrite Hz, Z.eqb_refl; discriminate
           | replace (bytes_find raw [x78] =? -1) with false
               by (symmetry; apply Z.eqb_neq; lia);
             cbn [negb]; destruct (zl _) as [e|d'] eqn:Hd; [discriminate|];
             intros [= <- <- <-];
             exists zlib, (slice_from raw (bytes_find raw [x78])), [];
             repeat split; [exact Hd|]; right; now do 2 eexists ]
         | replace (bytes_find raw [x1f; x8b] =? -1) with false
             by (symmetry; apply Z.eqb_neq; lia);
           cbn [negb]; destruct (gz _) as [e|d'] eqn:Hd; [discriminate|];
           intros [= <- <- <-];
           exists gzip, (slice_from raw (bytes_find raw [x1f; x8b])), [];
           repeat split; [exact Hd|]; right; now do 2 eexists ]). }
  cbn [decompress_with logged].
  assert (Hrescan :
    forall before,
      match Info.raw_sector_data info with
      | Some raw =>
          if nonempty raw
          then let (log', o) := rescan_raw gz zl raw in
               match o with
               | Some (d0, c0) => (before ++ log', Some (d0, Some c0))
               | None => (before ++ log', None)
               end
          else (before, None)
      | None => (before, None)
      end = (log, Some (d, c)) ->
      exists m input before',
        log = before' ++ [(m, input)] /\
        decompress_with gz zl m (Some input) = inr d /\
        c = Some (cand_tag m) /\
        (Some compressed = Some input \/
         exists raw k, Info.raw_sector_data info = Some raw /\
                       0 <= k < len raw /\ input = slice_from raw k)).
  { intros before.
    destruct (Info.raw_sector_data info) as [raw|]; [|discriminate].
    destruct (nonempty raw); [|discriminate].
    rewrite (rescan_raw_eq gz zl raw). cbv zeta.
    destruct (bytes_find_cases raw [x1f; x8b] (cons_not_nil _ _))
      as [[Hg _] | [Hg _]].
    - rewrite Hg, Z.eqb_refl. cbn [negb].
      destruct (bytes_find_cases raw [x78] (cons_not_nil _ _))
        as [[Hz _] | [Hz _]].
      + rewrite Hz, Z.eqb_refl. discriminate.
      + replace (bytes_find raw [x78] =? -1) with false
          by (symmetry; apply Z.eqb_neq; lia).
        cbn [negb]. destruct (zl _) as [e|d'] eqn:Hd; [discriminate|].
        intros [= <- <- <-].
        exists zlib, (slice_from raw (bytes_find raw [x78])), before.
        repeat split; [exact Hd|]. right. now do 2 eexists.
    - replace (bytes_find raw [x1f; x8b] =? -1) with false
        by (symmetry; apply Z.eqb_neq; lia).
      cbn [negb]. destruct (gz _) as [e|d'] eqn:Hd; [discriminate|].
      intros [= <- <- <-].
      exists gzip, (slice_from raw (bytes_find raw [x1f; x8b])), before.
      repeat split; [exact Hd|]. right. now do 2 eexists. }
  destruct (opt_Z_eqb (get_compression info) 1) eqn:H1.
  - destruct (gz compressed) as [e|d'] eqn:Hd.
    + apply Hrescan.
    + intros [= <- <- <-]. exists gzip, compressed, [].
      repeat split; [exact Hd | | now left].
      unfold opt_Z_eqb in H1. destruct (get_compression info) as [t|];
        [|discriminate]. apply Z.eqb_eq in H1. now subst t.
  - destruct (opt_Z_eqb (get_compression info) 2) eqn:H2.
    + destruct (zl compressed) as [e|d'] eqn:Hd.
      * apply Hrescan.
      * intros [= <- <- <-]. exists zlib, compressed, [].
        repeat split; [exact Hd | | now left].
        unfold opt_Z_eqb in H2. destruct (get_compression info) as [t|];
          [|discriminate]. apply Z.eqb_eq in H2. now subst t.
    + destruct (gz compressed) as [e|d'] eqn:Hd.
      * destruct (zl compressed) as [e'|d''] eqn:Hd'.
        -- apply Hrescan.
        -- intros [= <- <- <-]. exists zlib, compressed, [(gzip, compressed)].
           repeat split; [exact Hd' | now left].
      * intros [= <- <- <-]. exists gzip, compressed, [].
        repeat split; [exact Hd | now left].
Qed.

Lemma decompress_chunk_sound_witness :
  let info := Info.mk true [] (Some 2) (Some 1) (Some 3) (Some (Some 7))
                      (Some [x78; x9c]) (Some [x00; x00; x00; x03; x07; x78; x9c])
                      None in
  decompress_chunk sample_gzip sample_zlib_stored info
  = ([(gzip, [x78; x9c]); (zlib, [x78; x9c])], Some ([], Some 2)) /\
  exists m input before,
    [(gzip, [x78; x9c]); (zlib, [x78; x9c])] = before ++ [(m, input)] /\
    decompress_with sample_gzip sample_zlib_stored m (Some input) = inr [].
Proof.
  intros info.
  assert (H : decompress_chunk sample_gzip sample_zlib_stored info
              = ([(gzip, [x78; x9c]); (zlib, [x78; x9c])], Some ([], Some 2)))
    by (vm_compute; reflexivity).
  split; [exact H|].
  destruct (decompress_chunk_sound sample_gzip sample_zlib_stored info _ _ _ H)
    as (m & input & before & Hlog & Hd & _).
  now exists m, input, before.
Defined.

(** ** What a candidate of the scan points at *)

Lemma zlib_probe_none (block : bytes) (offs : list Z) :
  (forall o, In o offs -> 0 <= o) ->
  zlib_probe block offs = -1 ->
  forall o, In o offs -> zlib_pair_at block o = false.
Proof.
  induction offs as [|off offs IH]; intros Hpos Hm o Hin; [destruct Hin|].
  rewrite zlib_probe_cons in Hm.
  destruct (zlib_pair_at block off) eqn:Hp.
  - pose proof (Hpos off (or_introl eq_refl)). lia.
  - destruct Hin as [<- | Hin]; [exact Hp|].
    apply IH; [intros; apply Hpos; now right | exact Hm | exact Hin].
Qed.

Lemma zlib_probe_first (block : bytes) (offs : list Z) :
  zlib_probe block offs <> -1 ->
  exists before after,
    offs = before ++ zlib_probe block offs :: after /\
    zlib_pair_at block (zlib_probe block offs) = true /\
    forall o, In o before -> zlib_pair_at block o = false.
Proof.
  induction offs as [|off offs IH]; intros Hm; [now contradiction Hm|].
  rewrite zlib_probe_cons in *.
  destruct (zlib_pair_at block off) eqn:Hp.
  - exists [], offs. repeat split; [exact Hp | intros o []].
  - destruct (IH Hm) as (before & after & Heq & Hpair & Hfirst).
    exists (off :: before), after. split; [cbn; now f_equal|].
    split; [exact Hpair|]. intros o [<- | Hin]; [exact Hp | now apply Hfirst].
Qed.

(** X13. What the search of the scan returns.  A gzip candidate is at the
    first occurrence of [1f 8b] in the window.  A zlib candidate is returned
    only when the window has no [1f 8b]; it is at a [78] followed by [9c],
    [01] or [da], fewer than 32 bytes after the first [78] of the window,
    and no earlier position from that first [78] on holds such a pair.  No
    candidate means no [1f 8b] anywhere and no such pair at any position
    below the first [78] plus 32. *)
Theorem find_candidate_sound (block : bytes) (scan_start : Z) :
  match find_candidate block scan_start with
  | Some (c, gzip) =>
      0 <= c - scan_start /\
      occurs_at [x1f; x8b] block (c - scan_start) /\
      forall p, 0 <= p < c - scan_start -> ~ occurs_at [x1f; x8b] block p
  | Some (c, zlib) =>
      (forall p, 0 <= p -> ~ occurs_at [x1f; x8b] block p) /\
      zlib_pair_at block (c - scan_start) = true /\
      0 <= bytes_find block [x78] <= c - scan_start /\
      c - scan_start < bytes_find block [x78] + 32 /\
      forall q, 0 <= q < c - scan_start -> zlib_pair_at block q = false
  | None =>
      (forall p, 0 <= p -> ~ occurs_at [x1f; x8b] block p) /\
      forall q, 0 <= q < bytes_find block [x78] + 32 ->
                zlib_pair_at block q = false
  end.
Proof.
  assert (Hbefore : forall q,
             0 <= q ->
             (bytes_find block [x78] = -1 \/ q < bytes_find block [x78]) ->
             zlib_pair_at block q = false).
  { intros q Hq Hz. destruct (zlib_pair_at block q) eqn:Hp; [|reflexivity].
    pose proof (bytes_find_le block [x78] q (cons_not_nil _ _) Hq
                  (zlib_pair_at_78 block q Hq Hp)). lia. }
  assert (Hpast : forall q, len block <= q + 1 -> zlib_pair_at block q = false).
  { intros q Hq. unfold zlib_pair_at.
    replace (q + 1 <? len block) with false by (symmetry; apply Z.ltb_ge; lia).
    now rewrite andb_false_r. }
  destruct (bytes_find_cases block [x1f; x8b] (cons_not_nil _ _))
    as [[Hg Hnone] | [Hg [Hocc Hfirst]]].
  - destruct (bytes_find_cases block [x78] (cons_not_nil _ _))
      as [[Hz _] | [Hz _]].
    + unfold find_candidate. rewrite Hg, Hz, Z.eqb_refl. cbn [negb].
      split; [exact Hnone|]. intros q Hq. apply Hbefore; [lia | now left].
    + rewrite find_candidate_no_gzip by (exact Hg || lia). cbv zeta.
      set (z := bytes_find block [x78]) in *.
      set (offs := py_range z (Z.min (z + 32) (len block))).
      destruct (zlib_probe block offs =? -1) eqn:Hm.
      * apply Z.eqb_eq in Hm. split; [exact Hnone|]. intros q Hq.
        destruct (Z_lt_ge_dec q z) as [Hlt|Hge];
          [apply Hbefore; [lia | now right]|].
        destruct (Z_lt_ge_dec q (len block)) as [Hin|Hout];
          [|apply Hpast; lia].
        apply (zlib_probe_none block offs); [| exact Hm |].
        -- intros o Ho. apply in_py_range in Ho. lia.
        -- apply in_py_range. lia.
      * apply Z.eqb_neq in Hm.
        destruct (zlib_probe_first block offs Hm)
          as (before & after & Heq & Hpair & Hfst).
        assert (Hin : In (zlib_probe block offs) offs)
          by (rewrite Heq at 2; apply in_or_app; right; now left).
        apply in_py_range in Hin.
        replace (scan_start + zlib_probe block offs - scan_start)
          with (zlib_probe block offs) by lia.
        split; [exact Hnone|]. split; [exact Hpair|].
        split; [lia|]. split; [lia|].
        intros q Hq.
        destruct (Z_lt_ge_dec q z) as [Hlt|Hge];
          [apply Hbefore; [lia | now right]|].
        apply Hfst.
        assert (Hq' : In q offs) by (apply in_py_range; lia).
        rewrite Heq in Hq'. apply in_app_or in Hq'.
        destruct Hq' as [Hq' | [Hq' | Hq']]; [exact Hq' | lia |].
        exfalso.
        assert (Hsorted : forall l x y, py_range x y = l ->
                  forall l1 v l2 w, l = l1 ++ v :: l2 -> In w l2 -> v < w).
        { clear. intros l. induction l as [|h l IH]; intros x y Hr l1 v l2 w He Hw.
          - destruct l1; discriminate.
          - destruct (Z_lt_ge_dec x y) as [Hxy|Hxy];
              [|rewrite py_range_empty in Hr by lia; discriminate].
            rewrite py_range_cons in Hr by lia. injection Hr as <- Hr.
            destruct l1 as [|h1 l1]; cbn in He; injection He as He1 He2.
            + subst v l2. rewrite <- Hr in Hw. apply in_py_range in Hw. lia.
            + exact (IH (x + 1) y Hr l1 v l2 w He2 Hw). }
        pose proof (Hsorted offs z (Z.min (z + 32) (len block)) eq_refl
                      before _ after q Heq Hq'). lia.
  - rewrite find_candidate_gzip by lia.
    replace (scan_start + bytes_find block [x1f; x8b] - scan_start)
      with (bytes_find block [x1f; x8b]) by lia.
    split; [lia|]. split; [exact Hocc | exact Hfirst].
Qed.

(** ** The coordinates are taken modulo 32 *)

Lemma chunk_index_shift (cx cz k m : Z) :
  chunk_index (cx + 32 * k) (cz + 32 * m) = chunk_index cx cz.
Proof.
  rewrite !chunk_index_mod.
  now rewrite (Z.mul_comm 32 k), (Z.mul_comm 32 m), !Z_mod_plus_full.
Qed.

(** X14. The whole extraction, reads included, depends on the coordinates
    only through their remainders modulo 32: shifting either coordinate by
    a multiple of 32 gives the same result and the same reads. *)
Theorem extraction_periodic
        (gz zl : bytes -> string + bytes) (file : string + bytes)
        (cx cz k m : Z) :
  extract_run gz zl file (cx + 32 * k) (cz + 32 * m)
  = extract_run gz zl file cx cz.
Proof.
  unfold extract_run, extract_body. now rewrite chunk_index_shift.
Qed.

(** * [nbt_to_json_safe] *)

Lemma pyval_induction (P : pyval -> Prop) :
  (forall b, P (VBytes b)) ->
  (forall items, Forall (fun kv => P (snd kv)) items -> P (VDict items)) ->
  (forall l, Forall P l -> P (VList l)) ->
  (forall s, P (VStr s)) ->
  (forall z, P (VInt z)) ->
  (forall f, P (VFloat f)) ->
  (forall b, P (VBool b)) ->
  P VNone ->
  (forall t, P (VObj t)) ->
  forall v, P v.
Proof.
  intros HB HD HL HS HI HF HBo HN HO. fix IH 1.
  intros [b|items|l|s|z|f|b| |t];
    [apply HB | | | apply HS | apply HI | apply HF | apply HBo | apply HN
     | apply HO].
  - apply HD.
    refine ((fix go (l : list (pykey * pyval)) :
               Forall (fun kv => P (snd kv)) l :=
               match l with
               | [] => Forall_nil _
               | kv :: l' => Forall_cons kv _ (go l')
               end) items).
    destruct kv as [k w]. exact (IH w).
  - apply HL.
    refine ((fix go (l : list pyval) : Forall P l :=
               match l with
               | [] => Forall_nil _
               | w :: l' => Forall_cons w (IH w) (go l')
               end) l).
Qed.

(** ** Dictionaries built item by item *)

Lemma dict_set_keys (d : list (string * pyval)) (k : string) (v : pyval) :
  map fst (dict_set d k v)
  = if in_dec string_dec k (map fst d) then map fst d else map fst d ++ [k].
Proof.
  induction d as [|[k' v'] d IH]; cbn [dict_set map fst].
  - destruct (in_dec _ _ _) as [[]|_]. reflexivity.
  - destruct (String.eqb k' k) eqn:He.
    + apply String.eqb_eq in He. subst k'. cbn [map fst]. clear IH.
      destruct (in_dec string_dec k (k :: map fst d)) as [_|Hn];
        [reflexivity|].
      exfalso. apply Hn. now left.
    + apply String.eqb_neq in He. cbn [map fst]. rewrite IH.
      destruct (in_dec string_dec k (map fst d)) as [Hin|Hn];
        destruct (in_dec string_dec k (k' :: map fst d)) as [Hin'|Hn'];
        try reflexivity.
      * exfalso. apply Hn'. now right.
      * exfalso. destruct Hin' as [->|Hin']; [now apply He | now apply Hn].
Qed.

Lemma dict_set_NoDup (d : list (string * pyval)) (k : string) (v : pyval) :
  NoDup (map fst d) -> NoDup (map fst (dict_set d k v)).
Proof.
  intros Hd. rewrite dict_set_keys.
  destruct (in_dec _ _ _) as [_|Hn]; [exact Hd|].
  apply NoDup_app; [exact Hd | repeat constructor; intros [] |].
  intros x Hx [<-|[]]. now apply Hn.
Qed.

Lemma dict_set_fresh (d : list (string * pyval)) (k : string) (v : pyval) :
  ~ In k (map fst d) -> dict_set d k v = d ++ [(k, v)].
Proof.
  induction d as [|[k' v'] d IH]; intros Hn; cbn [dict_set app];
    [reflexivity|].
  destruct (String.eqb k' k) eqn:He.
  - apply String.eqb_eq in He. exfalso. apply Hn. now left.
  - f_equal. apply IH. intros Hin. apply Hn. now right.
Qed.

Lemma dict_set_in (d : list (string * pyval)) (k : string) (v : pyval)
      (k' : string) (v' : pyval) :
  In (k', v') (dict_set d k v) -> In (k', v') d \/ (k' = k /\ v' = v).
Proof.
  induction d as [|[k0 v0] d IH]; cbn [dict_set].
  - intros [[= <- <-]|[]]. now right.
  - destruct (String.eqb k0 k) eqn:He.
    + apply String.eqb_eq in He. subst k0.
      intros [[= <- <-]|Hin]; [now right | left; now right].
    + intros [Hin|Hin]; [left; now left|].
      destruct (IH Hin) as [H|H]; [left; now right | now right].
Qed.

Lemma dict_set_last (d : list (string * pyval)) (k : string) (v : pyval) :
  NoDup (map fst d) -> In (k, v) (dict_set d k v).
Proof.
  induction d as [|[k0 v0] d IH]; intros Hd; cbn [dict_set]; [now left|].
  destruct (String.eqb k0 k) eqn:He.
  - apply String.eqb_eq in He. subst k0. now left.
  - right. apply IH. now inversion Hd.
Qed.

Lemma dict_set_other (d : list (string * pyval)) (k : string) (v : pyval)
      (k' : string) (v' : pyval) :
  k' <> k -> In (k', v') d -> In (k', v') (dict_set d k v).
Proof.
  intros Hne. induction d as [|[k0 v0] d IH]; cbn [dict_set]; [intros []|].
  destruct (String.eqb k0 k) eqn:He.
  - apply String.eqb_eq in He. subst k0.
    intros [[= <- <-]|Hin]; [contradiction | now right].
  - intros [Hin|Hin]; [now left | right; now apply IH].
Qed.

Lemma fold_dict_set_NoDup (l acc : list (string * pyval)) :
  NoDup (map fst acc) ->
  NoDup (map fst (fold_left (fun d kv => dict_set d (fst kv) (snd kv)) l acc)).
Proof.
  revert acc. induction l as [|[k v] l IH]; intros acc Hacc; cbn [fold_left];
    [exact Hacc|].
  apply IH. now apply dict_set_NoDup.
Qed.

Lemma fold_dict_set_in (l acc : list (string * pyval)) (k : string) (v : pyval) :
  In (k, v) (fold_left (fun d kv => dict_set d (fst kv) (snd kv)) l acc) ->
  In (k, v) acc \/ In (k, v) l.
Proof.
  revert acc. induction l as [|[k0 v0] l IH]; intros acc; cbn [fold_left];
    [now left|].
  intros Hin. destruct (IH _ Hin) as [H|H]; [|right; now right].
  cbn [fst snd] in H. destruct (dict_set_in _ _ _ _ _ H) as [H'|[-> ->]];
    [now left | right; now left].
Qed.

Lemma fold_dict_set_keep (l acc : list (string * pyval)) (k : string) (v : pyval) :
  ~ In k (map fst l) -> In (k, v) acc ->
  In (k, v) (fold_left (fun d kv => dict_set d (fst kv) (snd kv)) l acc).
Proof.
  revert acc. induction l as [|[k0 v0] l IH]; intros acc Hn Hin;
    cbn [fold_left]; [exact Hin|].
  apply IH; [intros H; apply Hn; now right|].
  cbn [fst snd]. apply dict_set_other; [|exact Hin].
  intros ->. apply Hn. now left.
Qed.

Lemma fold_dict_set_distinct (l acc : list (string * pyval)) :
  NoDup (map fst (acc ++ l)) ->
  fold_left (fun d kv => dict_set d (fst kv) (snd kv)) l acc = acc ++ l.
Proof.
  revert acc. induction l as [|[k v] l IH]; intros acc Hnd; cbn [fold_left].
  - now rewrite app_nil_r.
  - cbn [fst snd]. rewrite dict_set_fresh.
    + rewrite IH; rewrite <- app_assoc; [reflexivity | exact Hnd].
    + rewrite map_app in Hnd. cbn [map fst] in Hnd.
      apply NoDup_remove_2 in Hnd. intros Hin. apply Hnd.
      apply in_or_app. now left.
Qed.

(** The last item with a given key gives the value of that key. *)
Lemma dict_of_items_last (l1 l2 : list (string * pyval)) (k : string) (v : pyval) :
  ~ In k (map fst l2) -> In (k, v) (dict_of_items (l1 ++ (k, v) :: l2)).
Proof.
  intros Hn. unfold dict_of_items. rewrite fold_left_app. cbn [fold_left].
  apply fold_dict_set_keep; [exact Hn|]. cbn [fst snd].
  apply dict_set_last. apply fold_dict_set_NoDup. constructor.
Qed.

(** ** The conversion *)

Lemma nbt_to_json_safe_dict (items : list (pykey * pyval)) :
  nbt_to_json_safe (VDict items)
  = VDict (str_keys (dict_of_items (map convert_item items))).
Proof.
  cbn [nbt_to_json_safe]. do 3 f_equal. apply map_ext. now intros [k v].
Qed.

Lemma dict_of_items_in (l : list (string * pyval)) (k : string) (v : pyval) :
  In (k, v) (dict_of_items l) -> In (k, v) l.
Proof.
  intros H. unfold dict_of_items in H.
  destruct (fold_dict_set_in _ _ _ _ H) as [[]|H']. exact H'.
Qed.

Lemma json_safe_str_keys (d : list (string * pyval)) :
  json_safe (VDict (str_keys d)) = forallb (fun kv => json_safe (snd kv)) d.
Proof.
  cbn [json_safe]. unfold str_keys.
  induction d as [|[k v] d IH]; cbn [map forallb fst snd]; [reflexivity|].
  now rewrite IH.
Qed.

Lemma distinct_keys_dict (items : list (pykey * pyval)) :
  distinct_keys (VDict items) <->
  NoDup (map (fun kv => str_of_key (fst kv)) items) /\
  Forall (fun kv => distinct_keys (snd kv)) items.
Proof.
  cbn [distinct_keys]. apply and_iff_compat_l.
  induction items as [|[k v] items IH]; cbn [snd].
  - split; [constructor | trivial].
  - split.
    + intros [Hv Hrest]. constructor; [exact Hv | now apply IH].
    + intros H. inversion H as [|x l Hv Hrest]; subst.
      split; [exact Hv | now apply IH].
Qed.

Lemma distinct_keys_list (l : list pyval) :
  distinct_keys (VList l) <-> Forall distinct_keys l.
Proof.
  cbn [distinct_keys].
  induction l as [|v l IH].
  - split; [constructor | trivial].
  - split.
    + intros [Hv Hrest]. constructor; [exact Hv | now apply IH].
    + intros H. inversion H as [|x l' Hv Hrest]; subst.
      split; [exact Hv | now apply IH].
Qed.

Lemma str_keys_keys (d : list (string * pyval)) :
  map (fun kv => str_of_key (fst kv)) (str_keys d) = map fst d.
Proof. unfold str_keys. rewrite map_map. now apply map_ext. Qed.

Lemma nbt_to_json_safe_canonical (v : pyval) :
  json_safe (nbt_to_json_safe v) = true /\ distinct_keys (nbt_to_json_safe v).
Proof.
  induction v as [b|items IH|l IH|s|z|f|b| |t] using pyval_induction;
    try (split; [reflexivity | exact I]).
  - rewrite nbt_to_json_safe_dict.
    assert (Hval : forall k w,
               In (k, w) (dict_of_items (map convert_item items)) ->
               json_safe w = true /\ distinct_keys w).
    { intros k w Hin. apply dict_of_items_in, in_map_iff in Hin.
      destruct Hin as ([k0 v0] & [= <- <-] & Hin).
      rewrite Forall_forall in IH. exact (IH _ Hin). }
    split.
    + rewrite json_safe_str_keys. apply forallb_forall.
      intros [k w] Hin. exact (proj1 (Hval k w Hin)).
    + apply distinct_keys_dict. split.
      * rewrite str_keys_keys. apply fold_dict_set_NoDup. constructor.
      * apply Forall_forall. intros [k w] Hin. unfold str_keys in Hin.
        apply in_map_iff in Hin. destruct Hin as ([k0 w0] & [= <- <-] & Hin).
        exact (proj2 (Hval k0 w0 Hin)).
  - cbn [nbt_to_json_safe]. split.
    + cbn [json_safe]. apply forallb_forall. intros w Hin.
      apply in_map_iff in Hin. destruct Hin as (v0 & <- & Hin).
      rewrite Forall_forall in IH. exact (proj1 (IH _ Hin)).
    + apply distinct_keys_list, Forall_forall. intros w Hin.
      apply in_map_iff in Hin. destruct Hin as (v0 & <- & Hin).
      rewrite Forall_forall in IH. exact (proj2 (IH _ Hin)).
Qed.

Lemma nbt_to_json_safe_fixed (v : pyval) :
  json_safe v = true -> distinct_keys v -> nbt_to_json_safe v = v.
Proof.
  induction v as [b|items IH|l IH|s|z|f|b| |t] using pyval_induction;
    intros Hsafe Hdist; try reflexivity; try discriminate.
  - rewrite nbt_to_json_safe_dict. f_equal.
    cbn [json_safe] in Hsafe. rewrite forallb_forall in Hsafe.
    apply distinct_keys_dict in Hdist. destruct Hdist as [Hnd Hvals].
    rewrite Forall_forall in IH, Hvals.
    assert (Hmap : map convert_item items
                   = map (fun kv => (str_of_key (fst kv), snd kv)) items).
    { apply map_ext_in. intros [k w] Hin. unfold convert_item. cbn [fst snd].
      f_equal. apply (IH _ Hin); cbn [snd].
      - specialize (Hsafe _ Hin). cbn in Hsafe. now destruct k.
      - exact (Hvals _ Hin). }
    rewrite Hmap. unfold dict_of_items.
    rewrite fold_dict_set_distinct
      by (cbn [app]; rewrite map_map; exact Hnd).
    cbn [app]. unfold str_keys. rewrite map_map.
    rewrite <- (map_id items) at 2. apply map_ext_in.
    intros [k w] Hin. cbn [fst snd]. specialize (Hsafe _ Hin). cbn in Hsafe.
    destruct k; [reflexivity | discriminate].
  - cbn [nbt_to_json_safe]. f_equal.
    cbn [json_safe] in Hsafe. rewrite forallb_forall in Hsafe.
    apply distinct_keys_list in Hdist.
    rewrite Forall_forall in IH, Hdist.
    rewrite <- (map_id l) at 2. apply map_ext_in.
    intros w Hin. apply (IH _ Hin); [exact (Hsafe _ Hin) | exact (Hdist _ Hin)].
Qed.

(** X15. The value returned by [nbt_to_json_safe] holds no [bytes] and no
    foreign object, every dictionary in it has string keys only, and no two
    items of such a dictionary have the same key. *)
Theorem nbt_to_json_safe_output (v : pyval) :
  json_safe (nbt_to_json_safe v) = true /\ distinct_keys (nbt_to_json_safe v).
Proof. exact (nbt_to_json_safe_canonical v). Qed.

(** X16. [nbt_to_json_safe] returns unchanged a value that is already safe
    (no [bytes], no foreign object, string keys that are pairwise distinct),
    and so applying it twice is the same as applying it once. *)
Theorem nbt_to_json_safe_idempotent (v : pyval) :
  (json_safe v = true -> distinct_keys v -> nbt_to_json_safe v = v) /\
  nbt_to_json_safe (nbt_to_json_safe v) = nbt_to_json_safe v.
Proof.
  split; [apply nbt_to_json_safe_fixed|].
  destruct (nbt_to_json_safe_canonical v) as [Hs Hd].
  now apply nbt_to_json_safe_fixed.
Qed.

Lemma nbt_to_json_safe_idempotent_witness :
  let v := VDict [(KStr "Level", VList [VInt 3; VStr "minecraft:air"; VNone]);
                  (KStr "DataVersion", VInt 2586)] in
  json_safe v = true /\ nbt_to_json_safe v = v.
Proof.
  intros v.
  assert (Hs : json_safe v = true) by reflexivity.
  split; [exact Hs|].
  apply (proj1 (nbt_to_json_safe_idempotent v) Hs).
  cbn. repeat split; repeat constructor; cbn; intuition discriminate.
Defined.

Lemma dict_keys_unique (d : list (string * pyval)) (k : string) (v w : pyval) :
  NoDup (map fst d) -> In (k, v) d -> In (k, w) d -> v = w.
Proof.
  induction d as [|[k1 v1] d IH]; intros Hnd Hv Hw; [destruct Hv|].
  cbn [map fst] in Hnd. inversion Hnd as [|x l' Hx Hnd']; subst.
  destruct Hv as [Hv|Hv]; destruct Hw as [Hw|Hw].
  - congruence.
  - exfalso. apply Hx. apply in_map_iff. exists (k, w).
    split; [cbn; congruence | exact Hw].
  - exfalso. apply Hx. apply in_map_iff. exists (k, v).
    split; [cbn; congruence | exact Hv].
  - now apply IH.
Qed.

(** X17. When several items of a dictionary have keys with the same
    [str(k)], the converted dictionary keeps one item for that key and its
    value is the converted value of the last of them; the converted
    dictionary never has more items than the original. *)
Theorem dict_last_key_wins
        (items1 items2 : list (pykey * pyval)) (k0 : pykey) (v0 : pyval) :
  (forall kv, In kv items2 -> str_of_key (fst kv) <> str_of_key k0) ->
  exists d,
    nbt_to_json_safe (VDict (items1 ++ (k0, v0) :: items2)) = VDict d /\
    In (KStr (str_of_key k0), nbt_to_json_safe v0) d /\
    (forall w, In (KStr (str_of_key k0), w) d -> w = nbt_to_json_safe v0) /\
    (List.length d <= List.length (items1 ++ (k0, v0) :: items2))%nat.
Proof.
  intros Hlast. rewrite nbt_to_json_safe_dict. eexists. split; [reflexivity|].
  set (l := map convert_item (items1 ++ (k0, v0) :: items2)).
  assert (Hnd : NoDup (map fst (dict_of_items l)))
    by (apply fold_dict_set_NoDup; constructor).
  assert (Hin : In (str_of_key k0, nbt_to_json_safe v0) (dict_of_items l)).
  { unfold l. rewrite map_app. cbn [map]. apply dict_of_items_last.
    rewrite map_map. intros Hk. apply in_map_iff in Hk.
    destruct Hk as (kv & Hk & Hkv). exact (Hlast kv Hkv Hk). }
  split; [|split].
  - unfold str_keys. apply in_map_iff.
    exists (str_of_key k0, nbt_to_json_safe v0). split; [reflexivity | exact Hin].
  - intros w Hw. unfold str_keys in Hw. apply in_map_iff in Hw.
    destruct Hw as ([k1 w1] & [= E1 E2] & Hw). cbn [fst snd] in E1, E2.
    subst k1 w1. exact (dict_keys_unique _ _ _ _ Hnd Hw Hin).
  - unfold str_keys. rewrite length_map.
    rewrite <- (length_map fst (dict_of_items l)).
    assert (Hincl : incl (map fst (dict_of_items l)) (map fst l)).
    { intros k Hk. apply in_map_iff in Hk. destruct Hk as ([k1 w1] & <- & Hk).
      apply in_map_iff. exists (k1, w1). split; [reflexivity|].
      now apply dict_of_items_in. }
    pose proof (NoDup_incl_length Hnd Hincl) as Hle.
    assert (Hl : List.length (map fst l)
                 = List.length (items1 ++ (k0, v0) :: items2))
      by (unfold l; now rewrite !length_map).
    rewrite <- Hl. exact Hle.
Qed.

Lemma dict_last_key_wins_witness :
  (forall kv : pykey * pyval,
     In kv [] -> str_of_key (fst kv) <> str_of_key (KStr "1")) /\
  exists d,
    nbt_to_json_safe
      (VDict [(KObj "1", VInt 10); (KStr "1", VBytes [x0a; xff])]) = VDict d /\
    In (KStr "1", VStr "0aff") d /\
    (List.length d <= 2)%nat.
Proof.
  assert (H : forall kv : pykey * pyval,
            In kv [] -> str_of_key (fst kv) <> str_of_key (KStr "1"))
    by (intros kv []).
  split; [exact H|].
  destruct (dict_last_key_wins [(KObj "1", VInt 10)] [] (KStr "1")
              (VBytes [x0a; xff]) H) as (d & Heq & Hin & _ & Hlen).
  exists d. split; [exact Heq|]. split; [exact Hin | exact Hlen].
Defined.

(** ** Bytes become hexadecimal text *)

Lemma hex_digit_is_hex (n : N) :
  (n < 16)%N -> is_hex_digit (hex_digit n) = true.
Proof.
  intros H. unfold hex_digit.
  assert (Hm : (N.to_nat n < 16)%nat) by lia.
  revert Hm. generalize (N.to_nat n) as m. intros m Hm.
  do 16 (destruct m as [|m]; [reflexivity|]). lia.
Qed.

Lemma hex_digit_inj (n m : N) :
  (n < 16)%N -> (m < 16)%N -> hex_digit n = hex_digit m -> n = m.
Proof.
  intros Hn Hm. unfold hex_digit.
  assert (Ha : (N.to_nat n < 16)%nat) by lia.
  assert (Hb : (N.to_nat m < 16)%nat) by lia.
  intros H.
  assert (Hab : N.to_nat n = N.to_nat m); [|lia].
  revert Ha Hb H.
  generalize (N.to_nat n) as a. generalize (N.to_nat m) as b.
  intros b a Ha Hb.
  do 16 (destruct a as [|a];
         [do 16 (destruct b as [|b];
                 [cbn; intros H; (reflexivity || discriminate H)|]); lia|]).
  lia.
Qed.

Lemma byte_to_N_inj (x y : byte) : Byte.to_N x = Byte.to_N y -> x = y.
Proof.
  intros H. pose proof (Byte.of_to_N x) as Hx. pose proof (Byte.of_to_N y) as Hy.
  rewrite H in Hx. congruence.
Qed.

Lemma hexlify_inj (b1 b2 : bytes) : hexlify b1 = hexlify b2 -> b1 = b2.
Proof.
  revert b2. induction b1 as [|x b1 IH]; intros [|y b2]; cbn [hexlify];
    try discriminate; [reflexivity|].
  intros [= Hhi Hlo Hrest].
  pose proof (Byte.to_N_bounded x) as Bx.
  pose proof (Byte.to_N_bounded y) as By.
  apply hex_digit_inj in Hhi;
    [| apply N.Div0.div_lt_upper_bound; lia
     | apply N.Div0.div_lt_upper_bound; lia].
  apply hex_digit_inj in Hlo; [| apply N.mod_lt; lia | apply N.mod_lt; lia].
  f_equal; [|now apply IH].
  apply byte_to_N_inj.
  rewrite (N.div_mod (Byte.to_N x) 16), (N.div_mod (Byte.to_N y) 16) by lia.
  now rewrite Hhi, Hlo.
Qed.

(** X18. A [bytes] value becomes a string of twice as many characters, all
    of them lowercase hexadecimal digits, and two different [bytes] values
    never become the same string. *)
Theorem bytes_to_hex_text (b1 b2 : bytes) :
  exists s,
    nbt_to_json_safe (VBytes b1) = VStr s /\
    String.length s = (2 * List.length b1)%nat /\
    string_forall is_hex_digit s = true /\
    (nbt_to_json_safe (VBytes b1) = nbt_to_json_safe (VBytes b2) -> b1 = b2).
Proof.
  exists (hexlify b1). split; [reflexivity|]. split; [|split].
  - induction b1 as [|x b1 IH]; cbn [hexlify String.length List.length];
      [reflexivity | rewrite IH; lia].
  - induction b1 as [|x b1 IH]; cbn [hexlify string_forall]; [reflexivity|].
    pose proof (Byte.to_N_bounded x) as Bx.
    rewrite !hex_digit_is_hex, IH;
      [reflexivity | apply N.mod_lt; lia
       | apply N.Div0.div_lt_upper_bound; lia].
  - cbn [nbt_to_json_safe]. intros [= H]. now apply hexlify_inj.
Qed.

Lemma bytes_to_hex_text_witness :
  nbt_to_json_safe (VBytes [x00; x7f; xff]) = VStr "007fff" /\
  (nbt_to_json_safe (VBytes [x00; x7f; xff])
   = nbt_to_json_safe (VBytes [x00; x7f; xff]) ->
   [x00; x7f; xff] = [x00; x7f; xff]).
Proof.
  destruct (bytes_to_hex_text [x00; x7f; xff] [x00; x7f; xff])
    as (s & Hs & _ & _ & Hinj).
  split; [reflexivity | exact Hinj].
Defined.

(** ** The attempts of the fallback *)

(** X11. The fallback over the raw block makes at most one attempt, and
    none exactly when the block holds neither [1f 8b] nor [78].  The input
    of the attempt is the raw block from a position inside it to its end
    and starts with the signature of the method tried ([1f 8b] for gzip,
    [78] alone for zlib: the byte after it is not looked at); zlib is tried
    only when the block has no [1f 8b].  Bytes returned are the output of
    that attempt, with the tag of its method. *)
Theorem rescan_raw_attempt
        (gz zl : bytes -> string + bytes) (raw : bytes) :
  let r := rescan_raw gz zl raw in
  (List.length (fst r) <= 1)%nat /\
  (fst r = [] <->
   bytes_find raw [x1f; x8b] = -1 /\ bytes_find raw [x78] = -1) /\
  (forall m input, In (m, input) (fst r) ->
     exists k, 0 <= k < len raw /\ input = slice_from raw k /\
               starts_with (match m with gzip => [x1f; x8b] | zlib => [x78] end)
                           input = true /\
               (m = zlib -> bytes_find raw [x1f; x8b] = -1)) /\
  (forall d c, snd r = Some (d, c) ->
     exists m input, fst r = [(m, input)] /\
                     decompress_with gz zl m (Some input) = inr d /\
                     c = cand_tag m).
Proof.
  intros r. unfold r. rewrite rescan_raw_eq. cbv zeta.
  destruct (bytes_find_cases raw [x1f; x8b] (cons_not_nil _ _))
    as [[Hg _] | [Hg [Hgo _]]].
  - rewrite Hg, Z.eqb_refl. cbn [negb].
    destruct (bytes_find_cases raw [x78] (cons_not_nil _ _))
      as [[Hz _] | [Hz [Hzo _]]].
    + rewrite Hz, Z.eqb_refl. cbn [negb fst snd List.length].
      split; [lia|]. split; [split; auto|].
      split; [intros m input []|]. discriminate.
    + replace (bytes_find raw [x78] =? -1) with false
        by (symmetry; apply Z.eqb_neq; lia).
      cbn [negb fst snd List.length]. split; [lia|].
      split; [split; [discriminate | intros [_ H]; lia]|]. split.
      * intros m input [[= <- <-]|[]].
        exists (bytes_find raw [x78]). repeat split; try lia; assumption.
      * destruct (zl _) as [e|d'] eqn:Hd; [discriminate|].
        intros d c [= <- <-]. exists zlib. eexists.
        split; [reflexivity|]. split; [exact Hd | reflexivity].
  - replace (bytes_find raw [x1f; x8b] =? -1) with false
      by (symmetry; apply Z.eqb_neq; lia).
    cbn [negb fst snd List.length]. split; [lia|].
    split; [split; [discriminate | intros [H _]; lia]|]. split.
    + intros m input [[= <- <-]|[]].
      exists (bytes_find raw [x1f; x8b]).
      repeat split; try lia; [assumption | discriminate].
    + destruct (gz _) as [e|d'] eqn:Hd; [discriminate|].
      intros d c [= <- <-]. exists gzip. eexists.
      split; [reflexivity|]. split; [exact Hd | reflexivity].
Qed.

(** ** The table of the header *)

Lemma struct_unpack_I_bound (b : bytes) (v : Z) :
  struct_unpack_I b = inr v -> 0 <= v < 4294967296.
Proof.
  destruct b as [|b0 [|b1 [|b2 [|b3 [|b4 b]]]]]; cbn; try discriminate.
  intros [= <-].
  pose proof (byte_val_bound b0). pose proof (byte_val_bound b1).
  pose proof (byte_val_bound b2). pose proof (byte_val_bound b3). lia.
Qed.

(** X19. On a file of at least 8192 bytes [read_region_header] succeeds
    with one read of 8192 bytes from position 0; the table has 1024
    entries, entry [i] is the big-endian value of bytes [4 i .. 4 i + 3] of
    the file, a number below [2^32]; the second half of the header (the
    timestamps) does not enter the table. *)
Theorem region_header_table (data : bytes) (r : Info.t) :
  8192 <= len data ->
  exists offsets,
    read_region_header (mkState (open_rb data) r)
    = (inr offsets, mkState (mkHandle data 8192 [(0, 8192)]) r) /\
    len offsets = 1024 /\
    forall i, 0 <= i < 1024 ->
      nth (Z.to_nat i) offsets 0
      = ((byte_val (byte_at data (i * 4)) * 256
          + byte_val (byte_at data (i * 4 + 1))) * 256
         + byte_val (byte_at data (i * 4 + 2))) * 256
        + byte_val (byte_at data (i * 4 + 3)) /\
      0 <= nth (Z.to_nat i) offsets 0 < 4294967296.
Proof.
  intros Hlen.
  assert (Hh : 8192 <= len (slice data 0 8192)) by (rewrite len_slice; lia).
  destruct (decode_offsets_total _ Hh) as [offsets Hdec].
  exists offsets. split; [now apply read_region_header_ok|].
  split; [exact (decode_offsets_len _ _ Hdec)|].
  intros i Hi. split; [exact (decode_offsets_entry data offsets i Hlen Hdec Hi)|].
  pose proof Hdec as Hdec'. rewrite decode_offsets_unfold in Hdec'.
  exact (struct_unpack_I_bound _ _ (unpack_range_entry _ 1024 offsets i Hdec' Hi)).
Qed.

Lemma region_header_table_witness :
  8192 <= len (region_file [x00; x00; x02; x01] []) /\
  exists offsets,
    fst (read_region_header
           (mkState (open_rb (region_file [x00; x00; x02; x01] [])) Info.init))
    = inr offsets /\
    nth 0 offsets 0 = 513.
Proof.
  assert (Hlen : 8192 <= len (region_file [x00; x00; x02; x01] []))
    by (vm_compute; discriminate).
  split; [exact Hlen|].
  destruct (region_header_table _ Info.init Hlen) as (offsets & Hrun & _ & Hent).
  exists offsets. split; [now rewrite Hrun|].
  destruct (Hent 0 ltac:(lia)) as [He _].
  etransitivity; [exact He | vm_compute; reflexivity].
Defined.

(** ** The reads an extraction issues *)

Lemma standard_read_reads (start : Z) (s : state) :
  content (fh (snd (standard_read start s))) = content (fh s) /\
  exists extra,
    reads (fh (snd (standard_read start s))) = reads (fh s) ++ extra /\
    (List.length extra <= 2)%nat /\
    Forall (fun pn => start <= fst pn) extra.
Proof.
  destruct s as [[data p rs] r].
  unfold standard_read, try_except, bind, f_seek.
  cbn [fh content pos reads res].
  destruct (start <? 0) eqn:Hneg.
  { cbn. split; [reflexivity|]. exists []. rewrite app_nil_r.
    repeat split; [cbn; lia | constructor]. }
  unfold f_read. change (4 <? -1) with false. cbn [fh content pos reads res].
  assert (H1 : Forall (fun pn : Z * Z => start <= fst pn) [(start, 4)])
    by (repeat constructor; cbn; lia).
  destruct (len (read_bytes data start 4) <? 4).
  { cbn. split; [reflexivity|]. exists [(start, 4)].
    repeat split; [cbn; lia | exact H1]. }
  destruct (struct_unpack_I (read_bytes data start 4)) as [e|L];
    cbn [lift raise ret].
  { cbn. split; [reflexivity|]. exists [(start, 4)].
    repeat split; [cbn; lia | exact H1]. }
  cbn [fh content pos reads res].
  destruct (L <? -1).
  { cbn. split; [reflexivity|]. exists [(start, 4)].
    repeat split; [cbn; lia | exact H1]. }
  cbn [fh content pos reads res].
  pose proof (len_nonneg (read_bytes data start 4)) as Hl.
  assert (H2 : Forall (fun pn : Z * Z => start <= fst pn)
                      [(start, 4); (start + len (read_bytes data start 4), L)])
    by (repeat constructor; cbn; lia).
  destruct (len _ <? Z.max 0 L); cbn; (split; [reflexivity|]);
    eexists; rewrite <- app_assoc; (split; [reflexivity|]);
    (split; [cbn; lia | exact H2]).
Qed.

Lemma try_candidate_reads
      (gz zl : bytes -> string + bytes) (file_end c : Z) (ty : cand) (s : state) :
  content (fh (snd (try_candidate gz zl file_end c ty s))) = content (fh s) /\
  exists extra,
    reads (fh (snd (try_candidate gz zl file_end c ty s)))
    = reads (fh s) ++ extra /\
    (List.length extra <= 1)%nat /\
    Forall (fun pn => c <= fst pn) extra.
Proof.
  destruct s as [[data p rs] r]. unfold try_candidate.
  rewrite bind_add_error. cbn [fh res].
  unfold bind at 1. unfold f_seek. cbn [fh content reads res].
  destruct (c <? 0).
  { cbn. split; [reflexivity|]. exists []. rewrite app_nil_r.
    repeat split; [cbn; lia | constructor]. }
  unfold bind at 1. unfold f_read. cbn [fh content pos reads res].
  destruct (_ <? -1).
  { cbn. split; [reflexivity|]. exists []. rewrite app_nil_r.
    repeat split; [cbn; lia | constructor]. }
  unfold try_except.
  destruct ty; unfold bind;
    [destruct (gz _) | destruct (zl _)]; cbn;
    (split; [reflexivity|]); eexists; (split; [reflexivity|]);
    (split; [cbn; lia | repeat constructor; cbn; lia]).
Qed.

Lemma recovery_scan_reads
      (gz zl : bytes -> string + bytes) (start : Z) (s : state) :
  content (fh (snd (recovery_scan gz zl start s))) = content (fh s) /\
  exists extra,
    reads (fh (snd (recovery_scan gz zl start s))) = reads (fh s) ++ extra /\
    (List.length extra <= 2)%nat /\
    Forall (fun pn => 4096 <= fst pn) extra.
Proof.
  destruct s as [[data p rs] r]. rewrite recovery_scan_eq. cbv zeta.
  destruct (_ <? -1).
  { cbn. split; [reflexivity|]. exists []. rewrite app_nil_r.
    repeat split; [cbn; lia | constructor]. }
  destruct (find_candidate _ _) as [[c ty]|] eqn:Hfind.
  - apply find_candidate_bounds in Hfind.
    match goal with
    | |- context [try_candidate gz zl ?fe c ty ?s'] =>
        destruct (try_candidate_reads gz zl fe c ty s')
          as (Hc & extra & Hr & Hl & Hp)
    end.
    cbn [fh content reads] in Hc, Hr. split; [exact Hc|].
    eexists. rewrite Hr, <- app_assoc. split; [reflexivity|].
    split; [cbn; lia|]. constructor; [cbn; lia|].
    eapply Forall_impl; [|exact Hp]. cbn. intros pn Hpn. lia.
  - cbn. split; [reflexivity|]. eexists. split; [reflexivity|].
    split; [cbn; lia | repeat constructor; cbn; lia].
Qed.

Lemma read_entry_reads
      (gz zl : bytes -> string + bytes) (start : Z) (s : state) :
  4096 <= start ->
  content (fh (snd (read_entry gz zl start s))) = content (fh s) /\
  exists extra,
    reads (fh (snd (read_entry gz zl start s))) = reads (fh s) ++ extra /\
    (List.length extra <= 4)%nat /\
    Forall (fun pn => 4096 <= fst pn) extra.
Proof.
  intros Hstart. destruct s as [[data p rs] r]. cbn [fh content reads].
  set (k := fun returned : bool =>
              if returned then ret tt else recovery_scan gz zl start).
  assert (Hgen : forall r0,
     content (fh (snd (bind (standard_read start) k
                            (mkState (mkHandle data (len data) rs) r0))))
     = data /\
     exists extra,
       reads (fh (snd (bind (standard_read start) k
                            (mkState (mkHandle data (len data) rs) r0))))
       = rs ++ extra /\
       (List.length extra <= 4)%nat /\
       Forall (fun pn => 4096 <= fst pn) extra).
  { intros r0.
    destruct (standard_read_outcome start
                (mkState (mkHandle data (len data) rs) r0))
      as (b & s' & Hrun & _).
    destruct (standard_read_reads start
                (mkState (mkHandle data (len data) rs) r0))
      as (Hc & e1 & Hr1 & Hl1 & Hp1).
    rewrite Hrun in Hc, Hr1. cbn [snd fh content reads] in Hc, Hr1.
    rewrite (bind_inr _ _ _ _ _ Hrun). unfold k.
    assert (Hp1' : Forall (fun pn : Z * Z => 4096 <= fst pn) e1)
      by (eapply Forall_impl; [|exact Hp1]; cbn; intros; lia).
    destruct b.
    - cbn [ret snd]. split; [exact Hc|]. exists e1.
      split; [exact Hr1|]. split; [lia | exact Hp1'].
    - destruct (recovery_scan_reads gz zl start s')
        as (Hc2 & e2 & Hr2 & Hl2 & Hp2).
      split; [congruence|]. exists (e1 ++ e2).
      rewrite Hr2, Hr1, app_assoc. split; [reflexivity|].
      split; [rewrite length_app; lia | now apply Forall_app]. }
  destruct (Z_lt_ge_dec start (len data)) as [Hin|Hout].
  - rewrite read_entry_inside by exact Hin. apply Hgen.
  - rewrite read_entry_beyond by lia. apply Hgen.
Qed.

(** X20. An extraction of a file that was opened issues at most five reads.
    The first is the read of the 8192-byte header at position 0; every
    later read starts at position 4096 or beyond, so the location table is
    never read again; the file contents are left as they were. *)
Theorem extraction_reads
        (gz zl : bytes -> string + bytes) (data : bytes) (cx cz : Z) :
  exists h extra,
    snd (extract_run gz zl (inr data) cx cz) = Some h /\
    content h = data /\
    reads h = (0, 8192) :: extra /\
    (List.length extra <= 4)%nat /\
    Forall (fun pn => 4096 <= fst pn) extra.
Proof.
  unfold extract_run.
  assert (Hgoal : exists extra,
            content (fh (snd (extract_body gz zl cx cz
                                (mkState (open_rb data) Info.init)))) = data /\
            reads (fh (snd (extract_body gz zl cx cz
                              (mkState (open_rb data) Info.init))))
            = (0, 8192) :: extra /\
            (List.length extra <= 4)%nat /\
            Forall (fun pn => 4096 <= fst pn) extra).
  { destruct (Z_lt_ge_dec (len data) 8192) as [Hshort|Hlen].
    - assert (Hb : extract_body gz zl cx cz (mkState (open_rb data) Info.init)
                   = (inl "Region header too short",
                      mkState (mkHandle data (len data) [(0, 8192)]) Info.init)).
      { unfold extract_body.
        exact (bind_inl _ _ _ _ _
                 (read_region_header_short data Info.init Hshort)). }
      rewrite Hb. exists []. cbn [snd fh content reads List.length].
      repeat split; [lia | constructor].
    - assert (Hh : 8192 <= len (slice data 0 8192))
        by (rewrite len_slice; lia).
      destruct (decode_offsets_total _ Hh) as [offsets Hdec].
      rewrite (extract_body_located gz zl data cx cz offsets ltac:(lia) Hdec).
      cbv zeta.
      pose proof (decode_offsets_nonneg _ _ (Z.to_nat (chunk_index cx cz)) Hdec)
        as Hentry.
      set (entry := nth (Z.to_nat (chunk_index cx cz)) offsets 0) in *.
      assert (Ho : 0 <= Z.shiftr entry 8)
        by (apply Z.shiftr_nonneg; exact Hentry).
      destruct (Z.shiftr entry 8 =? 0) eqn:Hzero.
      + exists []. cbn [add_error update_res snd fh content reads List.length].
        repeat split; [lia | constructor].
      + apply Z.eqb_neq in Hzero.
        match goal with
        | |- context [read_entry gz zl ?st ?s'] =>
            destruct (read_entry_reads gz zl st s' ltac:(lia))
              as (Hc & extra & Hr & Hl & Hp)
        end.
        cbn [fh content reads] in Hc, Hr.
        exists extra. split; [exact Hc|]. split; [exact Hr|].
        split; assumption. }
  destruct Hgoal as (extra & Hc & Hr & Hl & Hp).
  destruct (extract_body gz zl cx cz _) as [[e|u] s]; cbn [snd] in *;
    exists (fh s), extra; repeat split; assumption.
Qed.
